(** * LF_UpdateSicCodes_MR: a shallow embedding and its properties

    The Map/Reduce script [src/LF_UpdateSicCodes_MR.js] pulls the active
    customers that carry a company number, asks Companies House for each of
    them, and writes SIC codes, company status and (conditionally) the
    inactive flag back to the customer record.

    Layout of the development:
    - JavaScript strings and values, as far as the script uses them;
    - the platform the script runs on: the customer records, the searches and
      the HTTPS client of NetSuite, as a [Host] of facts the script cannot
      change, a [World] it can, and the trace of the platform calls it makes;
    - the script's functions, one definition per function, under the names
      they have in the source;
    - the vocabulary of the properties and a small account to run the script
      on;
    - the properties, C1 to C10, with the lemmas they rest on.

    What the embedding leaves out: the [log.debug] calls, and whatever the
    platform does on its own when a record is saved. *)

From Stdlib Require Import String Ascii ZArith List Bool.
From Stdlib Require Import Floats.Floats Numbers.Cyclic.Int63.Uint63.
From stdpp Require Import base option list gmap strings sorting.

Open Scope string_scope.
Open Scope Z_scope.

(** ** JavaScript strings

    A string is its sequence of code units; the development covers the
    strings whose code units are below 256, one [ascii] each. *)

Module JSString.

(** [s.length] *)
Definition length (s : string) : Z := Z.of_nat (String.length s).

(** [s.slice(start, end)] for [0 <= start], [0 <= end]: the code units from
    [start] up to, not including, [end], cut at the end of [s]. *)
Definition slice (s : string) (start end_ : nat) : string :=
  substring start (end_ - start) s.

(** [s.slice(start)]: the rest of [s] from [start]. *)
Definition slice_from (s : string) (start : nat) : string :=
  substring start (String.length s - start) s.

(** The class [[0-9]]. *)
Definition digit (c : ascii) : bool :=
  let n := nat_of_ascii c in (48 <=? n)%nat && (n <=? 57)%nat.

(** The class [\s]: TAB, LF, VT, FF, CR, SPACE and the no-break space
    U+00A0; the other members of the class are code units above 255. *)
Definition whitespace (c : ascii) : bool :=
  let n := nat_of_ascii c in
  ((9 <=? n)%nat && (n <=? 13)%nat) || (n =? 32)%nat || (n =? 160)%nat.

Fixpoint all (cls : ascii -> bool) (s : string) : bool :=
  match s with
  | EmptyString => true
  | String c rest => cls c && all cls rest
  end.

(** [s.match(/^C+$/)] read as a condition: the match array is truthy, [null]
    is not. Without the [m] flag [^] and [$] are the two ends of [s]. *)
Definition match_plus (cls : ascii -> bool) (s : string) : bool :=
  match s with
  | EmptyString => false
  | String _ _ => all cls s
  end.

(** [s.replace(/C/g, '')]: every code unit of the class is dropped. *)
Fixpoint remove (cls : ascii -> bool) (s : string) : string :=
  match s with
  | EmptyString => EmptyString
  | String c rest => if cls c then remove cls rest else String c (remove cls rest)
  end.

(** [xs.join(sep)] on an array of strings. *)
Definition join (sep : string) (xs : list string) : string := String.concat sep xs.

(** A string as a condition: only [''] is falsy. *)
Definition truthy (s : string) : bool := negb (String.eqb s "").

End JSString.

(** ** Outcomes

    A call returns or throws. [OutsideModel] marks the few conversions of the
    language the development does not define (a string or an object turned
    into a number); no path of the script reaches them. *)

Inductive Error :=
| SyntaxError
| TypeError
| PlatformError (name : string)
| OutsideModel.

Inductive Outcome (A : Type) :=
| Return (a : A)
| Throw (e : Error).
Arguments Return {A} a.
Arguments Throw {A} e.

#[export] Instance Outcome_ret : MRet Outcome := λ A a, Return a.
#[export] Instance Outcome_bind : MBind Outcome := λ A B f m,
  match m with
  | Return a => f a
  | Throw e => Throw e
  end.

(** ** JavaScript values

    Numbers are IEEE 754 doubles, as in the language. *)

#[local] Set Warnings "-register-all".
Inductive JSValue :=
| JUndefined
| JNull
| JBoolean (b : bool)
| JNumber (x : float)
| JString (s : string)
| JArray (elements : list JSValue)
| JObject (properties : list (string * JSValue)).
#[local] Set Warnings "+register-all".

Module JS.

Definition number_of_nat (n : nat) : float :=
  PrimFloat.of_uint63 (Uint63.of_Z (Z.of_nat n)).

(** [a === x] for a number [x]: no conversion; [-0 === 0], [NaN] equals
    nothing. *)
Definition strict_equals_number (a : JSValue) (x : float) : bool :=
  match a with
  | JNumber y => PrimFloat.eqb y x
  | _ => false
  end.

(** ToNumber on the values that need no parsing. *)
Definition ToNumber (v : JSValue) : Outcome float :=
  match v with
  | JUndefined => Return PrimFloat.nan
  | JNull => Return PrimFloat.zero
  | JBoolean b => Return (if b then PrimFloat.one else PrimFloat.zero)
  | JNumber x => Return x
  | JString _ | JArray _ | JObject _ => Throw OutsideModel
  end.

(** [a + b] on such operands. *)
Definition add (a b : JSValue) : Outcome JSValue :=
  x ← ToNumber a; y ← ToNumber b; mret (JNumber (PrimFloat.add x y)).

(** [a > b] on such operands; any comparison with [NaN] is false. *)
Definition greater_than (a b : JSValue) : Outcome bool :=
  x ← ToNumber a; y ← ToNumber b; mret (PrimFloat.ltb y x).

Fixpoint lookup_property (name : string) (properties : list (string * JSValue)) : JSValue :=
  match properties with
  | [] => JUndefined
  | (k, v) :: rest => if String.eqb k name then v else lookup_property name rest
  end.

Fixpoint store_property (name : string) (v : JSValue) (properties : list (string * JSValue))
  : list (string * JSValue) :=
  match properties with
  | [] => [(name, v)]
  | (k, old) :: rest =>
      if String.eqb k name then (k, v) :: rest else (k, old) :: store_property name v rest
  end.

(** [o.name], the read of an own data property: a property of a plain object
    ([undefined] when it has none of that name), the [length] of an array or
    of a string. Reading off [undefined] or [null] throws. *)
Definition get (o : JSValue) (name : string) : Outcome JSValue :=
  match o with
  | JUndefined | JNull => Throw TypeError
  | JObject properties => Return (lookup_property name properties)
  | JArray elements =>
      if String.eqb name "length" then Return (JNumber (number_of_nat (List.length elements)))
      else Throw OutsideModel
  | JString s =>
      if String.eqb name "length" then Return (JNumber (number_of_nat (String.length s)))
      else Throw OutsideModel
  | JBoolean _ | JNumber _ => Return JUndefined
  end.

(** [o.name = v] on a plain object. *)
Definition set (o : JSValue) (name : string) (v : JSValue) : Outcome JSValue :=
  match o with
  | JObject properties => Return (JObject (store_property name v properties))
  | JUndefined | JNull => Throw TypeError
  | _ => Throw OutsideModel
  end.

(** [a.push(v)]: only an array has the method. *)
Definition push (a : JSValue) (v : JSValue) : Outcome JSValue :=
  match a with
  | JArray elements => Return (JArray (elements ++ [v])%list)
  | _ => Throw TypeError
  end.

(** The text an array element contributes to [join]. *)
Definition element_text (v : JSValue) : Outcome string :=
  match v with
  | JString s => Return s
  | JUndefined | JNull => Return ""
  | _ => Throw OutsideModel
  end.

Fixpoint texts (elements : list JSValue) : Outcome (list string) :=
  match elements with
  | [] => Return []
  | v :: rest => s ← element_text v; ss ← texts rest; mret (s :: ss)
  end.

(** [a.join(sep)]: only an array has the method; calling it on anything else
    is a TypeError. *)
Definition join (a : JSValue) (sep : string) : Outcome string :=
  match a with
  | JArray elements => ss ← texts elements; mret (JSString.join sep ss)
  | _ => Throw TypeError
  end.

End JS.

(** ** The platform: records *)

Module Customer.

(** The fields of a customer record the script reads, writes or searches on.
    A multi-select holds the texts of its selected options; [getValue] on a
    currency field gives a JavaScript value. *)
Record t := {
  entityid : string;
  custentity_company_no : string;
  custentity_sic_codes : list string;
  custentity_sic_description : string;
  custentity_company_status : string;
  balance : JSValue;
  overduebalance : JSValue;
  unbilledorders : JSValue;
  isinactive : bool;
  lastmodifieddate : Z
}.

Definition with_sic_codes (v : list string) (c : t) : t :=
  {| entityid := entityid c; custentity_company_no := custentity_company_no c;
     custentity_sic_codes := v;
     custentity_sic_description := custentity_sic_description c;
     custentity_company_status := custentity_company_status c;
     balance := balance c; overduebalance := overduebalance c;
     unbilledorders := unbilledorders c; isinactive := isinactive c;
     lastmodifieddate := lastmodifieddate c |}.

Definition with_sic_description (v : string) (c : t) : t :=
  {| entityid := entityid c; custentity_company_no := custentity_company_no c;
     custentity_sic_codes := custentity_sic_codes c;
     custentity_sic_description := v;
     custentity_company_status := custentity_company_status c;
     balance := balance c; overduebalance := overduebalance c;
     unbilledorders := unbilledorders c; isinactive := isinactive c;
     lastmodifieddate := lastmodifieddate c |}.

Definition with_company_status (v : string) (c : t) : t :=
  {| entityid := entityid c; custentity_company_no := custentity_company_no c;
     custentity_sic_codes := custentity_sic_codes c;
     custentity_sic_description := custentity_sic_description c;
     custentity_company_status := v;
     balance := balance c; overduebalance := overduebalance c;
     unbilledorders := unbilledorders c; isinactive := isinactive c;
     lastmodifieddate := lastmodifieddate c |}.

Definition with_isinactive (v : bool) (c : t) : t :=
  {| entityid := entityid c; custentity_company_no := custentity_company_no c;
     custentity_sic_codes := custentity_sic_codes c;
     custentity_sic_description := custentity_sic_description c;
     custentity_company_status := custentity_company_status c;
     balance := balance c; overduebalance := overduebalance c;
     unbilledorders := unbilledorders c; isinactive := v;
     lastmodifieddate := lastmodifieddate c |}.

End Customer.

Module Loaded.

(** A record object in memory, as [record.load] hands it out: the internal id
    and a copy of the fields. Setters change the copy; [save] writes it back. *)
Record t := { id : Z; fields : Customer.t }.

Definition change (f : Customer.t → Customer.t) (record : t) : t :=
  {| id := id record; fields := f (fields record) |}.

End Loaded.

(** The [text] of [setText]: one text or an array of texts. *)
Inductive Text :=
| One (text : string)
| Many (texts : list string).

(** ** The platform: searches *)

Inductive Operator := ISNOTEMPTY | IS.

Inductive Filters :=
| Filter (name : string) (operator : Operator) (value : string)
| AND (left right : Filters).

Inductive Sort := ASC | DESC.

Module Column.
Record t := { name : string; sort : option Sort }.
End Column.

Module Values.

(** The [values] of one result of the customer search, by column. *)
Record t := {
  entityid : string;
  custentity_company_no : string;
  custentity_sic_codes : list string;
  lastmodifieddate : Z
}.

End Values.

Module Result.
Record t := { id : Z; values : Values.t }.
End Result.

(** ** The platform: HTTPS

    [body] is the text of the response body, held as what [JSON.parse] makes
    of it: [None] for a text that is not JSON (an empty body, an HTML error
    page), [Some JsonNull] for the text [null], and otherwise the value seen
    through the two properties the script reads, typed as the registry
    documents them ([sic_codes]: array of strings, [company_status]:
    string); a property that is absent reads [undefined], here [None]. *)

Record CompanyProfile := {
  sic_codes : option (list string);
  company_status : option string
}.

Inductive Json :=
| JsonNull
| JsonValue (profile : CompanyProfile).

Record ClientResponse := { code : Z; body : option Json }.

(** ** The world the script runs in *)

(** What the script cannot change during a run. *)
Record Host := {
  (** [custrecord_lf_cfg_comp_hou_api_key] of [customrecord_lf_cfg] #1 *)
  api_key : string;
  (** [N/encode]: UTF-8 text to Base64 *)
  base64 : string → string;
  (** [N/https.get]: the response to a request, or a transport failure *)
  https_get : string → list (string * string) → Outcome ClientResponse;
  (** the texts the multi-select [custentity_sic_codes] offers *)
  sic_option : string → bool;
  (** the texts [custentity_company_status] takes *)
  status_option : string → bool;
  (** the [customrecord_sic_codes] whose name HASKEYWORDS the given keywords:
      their [custrecord_siccodes_description], in result order *)
  sic_keyword_search : string → list string
}.

(** The calls the script makes on the platform, in the order it makes them. *)
Inductive Event :=
| LookupFields (type : string) (id : Z) (column : string)
| HttpsGet (url : string) (headers : list (string * string))
| SearchRun (type : string)
| SearchKeywords (type : string) (name : string) (keywords : string)
| RecordLoad (id : Z)
| RecordSetText (id : Z) (fieldId : string) (text : Text)
| RecordSetValue (id : Z) (fieldId : string) (value : JSValue)
| RecordSave (id : Z).

Record World := {
  customers : gmap Z Customer.t;
  trace : list Event
}.

(** A piece of script: from a world to an outcome and the world after it. A
    throw keeps the world as it was when thrown. *)
Definition Script (A : Type) : Type := World → Outcome A * World.

#[export] Instance Script_ret : MRet Script := λ A a w, (Return a, w).
#[export] Instance Script_bind : MBind Script := λ A B f m w,
  match m w with
  | (Return a, w') => f a w'
  | (Throw e, w') => (Throw e, w')
  end.

Definition throw {A} (e : Error) : Script A := λ w, (Throw e, w).

Definition run {A} (o : Outcome A) : Script A := λ w, (o, w).

Definition emit (e : Event) : Script unit :=
  λ w, (Return tt, {| customers := customers w; trace := (trace w ++ [e])%list |}).

(** The customer records as they are stored, and the write of one of them. *)
Definition stored : Script (gmap Z Customer.t) := λ w, (Return (customers w), w).

Definition store (id : Z) (c : Customer.t) : Script unit :=
  λ w, (Return tt, {| customers := <[id := c]> (customers w); trace := trace w |}).

(** [try { body } catch (err) { handler }] *)
Definition try_catch {A} (body : Script A) (handler : Error → Script A) : Script A :=
  λ w, match body w with
       | (Return a, w') => (Return a, w')
       | (Throw err, w') => handler err w'
       end.

(** [xs.forEach(callback)], the variables the callback assigns to threaded
    through as [s]. *)
Fixpoint forEach {A S} (xs : list A) (callback : A → S → Script S) (s : S) : Script S :=
  match xs with
  | [] => mret s
  | x :: rest => s' ← callback x s; forEach rest callback s'
  end.

(** ** The company number sent to the registry

    [getCompaniesHouseApiResponse], lines 48-61: the local
    [searchableCompanyId]. The two [if]s run one after the other. *)

Definition searchableCompanyId (companyId : string) : string :=
  let searchableCompanyId := companyId in
  let searchableCompanyId :=
    if JSString.match_plus JSString.digit companyId && (JSString.length companyId =? 7)
    then "0" +:+ companyId
    else searchableCompanyId in
  let searchableCompanyId :=
    if JSString.match_plus JSString.whitespace companyId
    then JSString.remove JSString.whitespace companyId
    else searchableCompanyId in
  searchableCompanyId.

(** ** The platform's record and search calls *)

(** What a multi-select holds after [setText]: [''] clears it, any other text
    has to be one of its options, an array has to consist of options. *)
Definition multiselect (offered : string → bool) (text : Text) : option (list string) :=
  match text with
  | One "" => Some []
  | One t => if offered t then Some [t] else None
  | Many ts => if forallb offered ts then Some ts else None
  end.

(** The same for a field that holds one text. *)
Definition select (offered : string → bool) (text : Text) : option string :=
  match text with
  | One "" => Some ""
  | One t => if offered t then Some t else None
  | Many _ => None
  end.

(** The text a customer search sees in a field. *)
Definition field_text (c : Customer.t) (name : string) : string :=
  if String.eqb name "entityid" then Customer.entityid c
  else if String.eqb name "custentity_company_no" then Customer.custentity_company_no c
  else if String.eqb name "custentity_sic_codes" then
    JSString.join "," (Customer.custentity_sic_codes c)
  else if String.eqb name "custentity_sic_description" then
    Customer.custentity_sic_description c
  else if String.eqb name "custentity_company_status" then
    Customer.custentity_company_status c
  else if String.eqb name "isinactive" then (if Customer.isinactive c then "T" else "F")
  else "".

Fixpoint matches (f : Filters) (c : Customer.t) : bool :=
  match f with
  | Filter name ISNOTEMPTY _ => negb (String.eqb (field_text c name) "")
  | Filter name IS value => String.eqb (field_text c name) value
  | AND l r => matches l c && matches r c
  end.

(** The key a column sorts on; the script sorts on the modification date. *)
Definition sort_key (name : string) (c : Customer.t) : Z :=
  if String.eqb name "lastmodifieddate" then Customer.lastmodifieddate c else 0.

Definition sorted_column (columns : list Column.t) : option (string * Sort) :=
  match List.filter (λ col, bool_decide (is_Some (Column.sort col))) columns with
  | col :: _ => (λ d, (Column.name col, d)) <$> Column.sort col
  | [] => None
  end.

(** [before columns a b]: the search may list [a] ahead of [b]. *)
Definition before (columns : list Column.t) (a b : Z * Customer.t) : Prop :=
  match sorted_column columns with
  | Some (name, DESC) => sort_key name b.2 ≤ sort_key name a.2
  | Some (name, ASC) => sort_key name a.2 ≤ sort_key name b.2
  | None => True
  end.

#[export] Instance before_dec columns : RelDecision (before columns).
Proof.
  intros a b. unfold before.
  destruct (sorted_column columns) as [[name []]|]; apply _.
Defined.

Definition to_result (row : Z * Customer.t) : Result.t :=
  {| Result.id := row.1;
     Result.values :=
       {| Values.entityid := Customer.entityid row.2;
          Values.custentity_company_no := Customer.custentity_company_no row.2;
          Values.custentity_sic_codes := Customer.custentity_sic_codes row.2;
          Values.lastmodifieddate := Customer.lastmodifieddate row.2 |} |}.

(** [search.create({type: CUSTOMER, filters, columns}).run()]: the customers
    the filters keep, in the order of the sorted column. *)
Definition customer_search (filters : Filters) (columns : list Column.t)
    (db : gmap Z Customer.t) : list Result.t :=
  to_result <$>
    merge_sort (before columns) (List.filter (λ row, matches filters row.2) (map_to_list db)).

(** [resultSet.getRange({start, end})]: the results from index [start] up to,
    not including, [end]. *)
Definition getRange {A} (results : list A) (start end_ : nat) : list A :=
  take (end_ - start) (drop start results).

(** [resultSet.each] visits at most this many results. *)
Definition each_limit : nat := 4000.

(** ** The script *)

Section Script.

Context (h : Host).

(** [record.setText({fieldId, text})]. The store refuses a text that is not
    an option of the field: the call throws and the record object stays as it
    was. *)
Definition setText (record : Loaded.t) (fieldId : string) (text : Text) : Script Loaded.t :=
  emit (RecordSetText (Loaded.id record) fieldId text);;
  if String.eqb fieldId "custentity_sic_codes" then
    match multiselect (sic_option h) text with
    | Some v => mret (Loaded.change (Customer.with_sic_codes v) record)
    | None => throw (PlatformError "INVALID_FLD_VALUE")
    end
  else if String.eqb fieldId "custentity_company_status" then
    match select (status_option h) text with
    | Some v => mret (Loaded.change (Customer.with_company_status v) record)
    | None => throw (PlatformError "INVALID_FLD_VALUE")
    end
  else throw (PlatformError "SSS_INVALID_FIELD").

(** [record.setValue({fieldId, value})] *)
Definition setValue (record : Loaded.t) (fieldId : string) (value : JSValue) : Script Loaded.t :=
  emit (RecordSetValue (Loaded.id record) fieldId value);;
  if String.eqb fieldId "custentity_sic_description" then
    match value with
    | JString v => mret (Loaded.change (Customer.with_sic_description v) record)
    | _ => throw (PlatformError "INVALID_FLD_VALUE")
    end
  else if String.eqb fieldId "isinactive" then
    match value with
    | JBoolean v => mret (Loaded.change (Customer.with_isinactive v) record)
    | _ => throw (PlatformError "INVALID_FLD_VALUE")
    end
  else throw (PlatformError "SSS_INVALID_FIELD").

(** [record.getValue({fieldId})] *)
Definition getValue (record : Loaded.t) (fieldId : string) : JSValue :=
  let c := Loaded.fields record in
  if String.eqb fieldId "balance" then Customer.balance c
  else if String.eqb fieldId "overduebalance" then Customer.overduebalance c
  else if String.eqb fieldId "unbilledorders" then Customer.unbilledorders c
  else if String.eqb fieldId "isinactive" then JBoolean (Customer.isinactive c)
  else if String.eqb fieldId "custentity_sic_description" then
    JString (Customer.custentity_sic_description c)
  else if String.eqb fieldId "custentity_company_status" then
    JString (Customer.custentity_company_status c)
  else if String.eqb fieldId "custentity_sic_codes" then
    JArray (JString <$> Customer.custentity_sic_codes c)
  else JUndefined.

(** [record.load({type: CUSTOMER, id})] *)
Definition load (id : Z) : Script Loaded.t :=
  emit (RecordLoad id);;
  db ← stored;
  match db !! id with
  | Some c => mret {| Loaded.id := id; Loaded.fields := c |}
  | None => throw (PlatformError "RCRD_DSNT_EXIST")
  end.

(** [record.save()] *)
Definition save (record : Loaded.t) : Script Z :=
  emit (RecordSave (Loaded.id record));;
  store (Loaded.id record) (Loaded.fields record);;
  mret (Loaded.id record).

(** [JSON.parse(response.body)] *)
Definition JSON_parse (body : option Json) : Outcome Json :=
  match body with
  | Some v => Return v
  | None => Throw SyntaxError
  end.

(** [responseBody.sic_codes] and [responseBody.company_status] *)
Definition read_sic_codes (responseBody : Json) : Outcome (option (list string)) :=
  match responseBody with
  | JsonNull => Throw TypeError
  | JsonValue profile => Return (sic_codes profile)
  end.

Definition read_company_status (responseBody : Json) : Outcome (option string) :=
  match responseBody with
  | JsonNull => Throw TypeError
  | JsonValue profile => Return (company_status profile)
  end.

(** Lines 16-26. *)
Definition getApiKey : Script string :=
  emit (LookupFields "customrecord_lf_cfg" 1 "custrecord_lf_cfg_comp_hou_api_key");;
  let apiKey := api_key h in
  mret apiKey.

(** Lines 36-70. *)
Definition getCompaniesHouseApiResponse (companyId : string) : Script ClientResponse :=
  apiKey ← getApiKey;
  let password := "" in
  let base64authString := base64 h (apiKey +:+ ":" +:+ password) in
  let requestHeaders := [("Authorization", "Basic " +:+ base64authString)] in
  let requestUrl :=
    "https://api.companieshouse.gov.uk/company/" +:+ searchableCompanyId companyId in
  emit (HttpsGet requestUrl requestHeaders);;
  response ← run (https_get h requestUrl requestHeaders);
  mret response.

(** The body of the [forEach] callback, lines 85-91. *)
Definition usableCode (code : string) : string :=
  let usableCode := code in
  if String.eqb (JSString.slice code 0 1) "0" then JSString.slice_from code 1
  else usableCode.

(** Lines 79-98. [&&] reads [responseBody.sic_codes] only when the code is
    200; an array, even an empty one, is truthy. *)
Definition getSicCodesFromCompaniesHouseResponse (response : ClientResponse)
  : Outcome (list string) :=
  let sicCodes : list string := [] in
  responseBody ← JSON_parse (body response);
  if code response =? 200 then
    raw ← read_sic_codes responseBody;
    match raw with
    | Some codes =>
        mret (fold_left (λ sicCodes code, (sicCodes ++ [usableCode code])%list) codes sicCodes)
    | None => mret sicCodes
    end
  else mret sicCodes.

(** Lines 107-117. *)
Definition getCompanyStatusFromCompaniesHouseResponse (response : ClientResponse)
  : Outcome string :=
  responseBody ← JSON_parse (body response);
  let companyStatus := "" in
  if code response =? 200 then
    raw ← read_company_status responseBody;
    match raw with
    | Some status => if JSString.truthy status then mret status else mret companyStatus
    | None => mret companyStatus
    end
  else mret companyStatus.

(** Lines 240-266. The function returns the object [data], with its
    properties [recodsCount] and [records] and, once a result was visited,
    [recordsCount]. *)
Definition getSicDescriptions (sicCodes : list string) : Script JSValue :=
  let data := JObject [("recodsCount", JNumber PrimFloat.zero); ("records", JArray [])] in
  let searchableSicCodesString := JSString.join " OR " sicCodes in
  emit (SearchKeywords "customrecord_sic_codes" "name" searchableSicCodesString);;
  let results := take each_limit (sic_keyword_search h searchableSicCodesString) in
  forEach results (λ result data,
    let sicDescription := JString result in
    run (records ← JS.get data "records";
         records ← JS.push records sicDescription;
         data ← JS.set data "records" records;
         count ← JS.get data "recordsCount";
         count ← JS.add count (JNumber PrimFloat.one);
         JS.set data "recordsCount" count)) data.

(** Lines 127-174; the [log.debug] calls, which touch neither the record nor
    the flow of control, are left out. *)
Definition updateClientSicCodes (record : Loaded.t) (sicCodes : list string)
  : Script Loaded.t :=
  let errorFound := false in
  '(errorFound, record) ← forEach sicCodes (λ sicCode '(errorFound, record),
      try_catch
        (record ← setText record "custentity_sic_codes" (One sicCode);
         mret (errorFound, record))
        (λ err,
         let errorFound := true in
         record ← setText record "custentity_sic_codes" (One "");
         mret (errorFound, record)))
    (errorFound, record);
  if negb errorFound then
    record ← setText record "custentity_sic_codes" (Many sicCodes);
    sicDescriptions ← getSicDescriptions sicCodes;
    length ← run (JS.get sicDescriptions "length");
    positive ← run (JS.greater_than length (JNumber PrimFloat.zero));
    if positive : bool then
      value ← run (JS.join sicDescriptions "; ");
      setValue record "custentity_sic_description" (JString value)
    else mret record
  else mret record.

(** Lines 184-189. *)
Definition updateClientCompanyStatus (record : Loaded.t) (companyStatus : string)
  : Script Loaded.t :=
  setText record "custentity_company_status" (One companyStatus).

(** Lines 203-227. *)
Definition updateClientAccount (record : Loaded.t) (companyStatus : string)
  : Script Loaded.t :=
  if negb (String.eqb companyStatus "active") then
    let balance := getValue record "balance" in
    let overdueBalance := getValue record "overduebalance" in
    let unbilledOrders := getValue record "unbilledorders" in
    if JS.strict_equals_number balance PrimFloat.zero
       && JS.strict_equals_number overdueBalance PrimFloat.zero
       && JS.strict_equals_number unbilledOrders PrimFloat.zero
    then setValue record "isinactive" (JBoolean true)
    else mret record
  else mret record.

(** Lines 278-306. *)
Definition getInputData : Script (list Result.t) :=
  let filters :=
    AND (Filter "custentity_company_no" ISNOTEMPTY "") (Filter "isinactive" IS "F") in
  let columns :=
    [ {| Column.name := "entityid"; Column.sort := None |};
      {| Column.name := "custentity_company_no"; Column.sort := None |};
      {| Column.name := "custentity_sic_codes"; Column.sort := None |};
      {| Column.name := "lastmodifieddate"; Column.sort := Some DESC |} ] in
  emit (SearchRun "customer");;
  db ← stored;
  let results := getRange (customer_search filters columns db) 0 600 in
  mret results.

(** Lines 316-348. [context.value] is the search result the input stage
    produced, already parsed. *)
Definition map (value : Result.t) : Script bool :=
  let companyNo := Values.custentity_company_no (Result.values value) in
  if negb (JSString.truthy companyNo) then mret true
  else
    let clientId := Result.id value in
    apiResponse ← getCompaniesHouseApiResponse companyNo;
    sicCodes ← run (getSicCodesFromCompaniesHouseResponse apiResponse);
    companyStatus ← run (getCompanyStatusFromCompaniesHouseResponse apiResponse);
    if (0 <? List.length sicCodes)%nat || JSString.truthy companyStatus then
      record ← load clientId;
      record ← (if (0 <? List.length sicCodes)%nat
                then updateClientSicCodes record sicCodes
                else mret record);
      record ← (if JSString.truthy companyStatus
                then record ← updateClientCompanyStatus record companyStatus;
                     updateClientAccount record companyStatus
                else mret record);
      save record;;
      mret true
    else mret true.

End Script.

(** ** The summary stage *)

Module Log.

(** One [log.error] call. *)
Record entry := { title : string; details : string }.

End Log.

Module Summary.

(** What [summarize] reads of its argument: [inputSummary.error] ([None]
    when it is [null]) and the entries the iterators of [mapSummary.errors]
    and [reduceSummary.errors] yield, key and error, in their order. *)
Record t := {
  input_error : option string;
  map_errors : list (string * string);
  reduce_errors : list (string * string)
}.

End Summary.

(** [iterator.each(callback)]: the entries are visited in order for as long
    as the callback returns [true]; [s] is what the callback changes. *)
Fixpoint each {S} (entries : list (string * string))
    (callback : string → string → S → S * bool) (s : S) : S :=
  match entries with
  | [] => s
  | (key, value) :: rest =>
      let '(s', continue) := callback key value s in
      if continue : bool then each rest callback s' else s'
  end.

(** [log.error({title, details})], the log being the calls made so far. *)
Definition log_error (title details : string) (log : list Log.entry) : list Log.entry :=
  (log ++ [{| Log.title := title; Log.details := details |}])%list.

(** Lines 358-386. *)
Definition summarize (summary : Summary.t) : list Log.entry :=
  let log := [] in
  let log :=
    match Summary.input_error summary with
    | Some error => if JSString.truthy error then log_error "Input Error" error log else log
    | None => log
    end in
  let log :=
    each (Summary.map_errors summary)
      (λ key error log, (log_error ("Map Error for key: " +:+ key) error log, true)) log in
  let log :=
    each (Summary.reduce_errors summary)
      (λ key error log, (log_error ("Reduce Error for key: " +:+ key) error log, true)) log in
  log.

(** ** Vocabulary of the properties *)

(** The patterns of the specification, over the characters of the string. *)

Definition chars (s : string) : list ascii := list_ascii_of_string s.

(** [^[0-9]{7}$] *)
Definition seven_digits (raw : string) : Prop :=
  List.length (chars raw) = 7%nat ∧ Forall (λ c, JSString.digit c = true) (chars raw).

(** "consists entirely of whitespace" *)
Definition all_whitespace (raw : string) : Prop :=
  Forall (λ c, JSString.whitespace c = true) (chars raw).

(** The platform calls a piece of script makes when run in [w]. *)
Definition emitted {A} (s : Script A) (w : World) : list Event :=
  drop (List.length (trace w)) (trace (s w).2).

(** The calls on a record object: load, the setters, save. *)
Definition record_event (e : Event) : bool :=
  match e with
  | RecordLoad _ | RecordSetText _ _ _ | RecordSetValue _ _ _ | RecordSave _ => true
  | LookupFields _ _ _ | HttpsGet _ _ | SearchRun _ | SearchKeywords _ _ _ => false
  end.

Definition is_load (e : Event) : bool :=
  match e with RecordLoad _ => true | _ => false end.

Definition is_save (e : Event) : bool :=
  match e with RecordSave _ => true | _ => false end.

(** What the setters of the record [id] and the description search may emit;
    the inactive flag is only ever set to [true]. *)
Definition mutator_event (id : Z) (e : Event) : Prop :=
  match e with
  | RecordSetText i _ _ => i = id
  | RecordSetValue i fieldId value => i = id ∧ (fieldId = "isinactive" → value = JBoolean true)
  | SearchKeywords type _ _ => type = "customrecord_sic_codes"
  | LookupFields _ _ _ | HttpsGet _ _ | SearchRun _ | RecordLoad _ | RecordSave _ => False
  end.

(** A value that is the number zero, of either sign. *)
Definition exactly_zero (v : JSValue) : Prop :=
  v = JNumber PrimFloat.zero ∨ v = JNumber PrimFloat.neg_zero.

(** The condition under which a customer is to be deactivated. *)
Definition deactivation_due (c : Customer.t) (companyStatus : string) : Prop :=
  companyStatus ≠ "active" ∧
  exactly_zero (Customer.balance c) ∧
  exactly_zero (Customer.overduebalance c) ∧
  exactly_zero (Customer.unbilledorders c).

(** The registry's answer for a company number, and what the two readers make
    of it: the interpreted codes and status of a candidate. *)
Definition lookup (h : Host) (companyNo : string) : Outcome ClientResponse :=
  https_get h ("https://api.companieshouse.gov.uk/company/" +:+ searchableCompanyId companyNo)
    [("Authorization", "Basic " +:+ base64 h (api_key h +:+ ":" +:+ ""))].

Definition interpreted (h : Host) (companyNo : string) : Outcome (list string * string) :=
  response ← lookup h companyNo;
  sicCodes ← getSicCodesFromCompaniesHouseResponse response;
  companyStatus ← getCompanyStatusFromCompaniesHouseResponse response;
  mret (sicCodes, companyStatus).

(** The events of the lookup. *)
Definition lookup_events (h : Host) (companyNo : string) : list Event :=
  [ LookupFields "customrecord_lf_cfg" 1 "custrecord_lf_cfg_comp_hou_api_key";
    HttpsGet ("https://api.companieshouse.gov.uk/company/" +:+ searchableCompanyId companyNo)
      [("Authorization", "Basic " +:+ base64 h (api_key h +:+ ":" +:+ ""))] ].

(** [s] leaves the stored customers alone, emits only events that satisfy
    [P], and what it returns satisfies [Q]. *)
Definition behaves {A} (P : Event → Prop) (Q : A → Prop) (s : Script A) : Prop :=
  ∀ w,
    customers (s w).2 = customers w ∧
    (∃ evs, trace (s w).2 = (trace w ++ evs)%list ∧ Forall P evs) ∧
    (∀ a, (s w).1 = Return a → Q a).

(** [descends record record']: [record'] is the same record object after some
    setters ran, and an inactive record is still inactive. *)
Definition descends (record record' : Loaded.t) : Prop :=
  Loaded.id record' = Loaded.id record ∧
  (Customer.isinactive (Loaded.fields record) = true →
   Customer.isinactive (Loaded.fields record') = true).

(** The shape of [data] all along: a plain object with an array under
    [records] and nothing under [length]. *)
Definition description_data (data : JSValue) : Prop :=
  ∃ properties,
    data = JObject properties ∧
    JS.lookup_property "length" properties = JUndefined ∧
    (∃ elements, JS.lookup_property "records" properties = JArray elements) ∧
    (JS.lookup_property "recordsCount" properties = JUndefined ∨
     ∃ x, JS.lookup_property "recordsCount" properties = JNumber x).

(** What [updateClientSicCodes] may emit on the record [id]. *)
Definition sic_event (id : Z) (e : Event) : Prop :=
  match e with
  | RecordSetText i fieldId _ => i = id ∧ fieldId = "custentity_sic_codes"
  | SearchKeywords type _ _ => type = "customrecord_sic_codes"
  | _ => False
  end.

(** [record'] is [record] with, at most, other SIC codes. *)
Definition same_but_sic_codes (record record' : Loaded.t) : Prop :=
  ∃ v, record' = Loaded.change (Customer.with_sic_codes v) record.

(** The two halves of [updateClientSicCodes]: the [forEach] with its
    [try]/[catch], and what follows it. *)
Definition attempts (h : Host) (sicCodes : list string) (s : bool * Loaded.t)
  : Script (bool * Loaded.t) :=
  forEach sicCodes (λ sicCode '(errorFound, record),
      try_catch
        (record ← setText h record "custentity_sic_codes" (One sicCode);
         mret (errorFound, record))
        (λ err,
         let errorFound := true in
         record ← setText h record "custentity_sic_codes" (One "");
         mret (errorFound, record)))
    s.

Definition commit (h : Host) (sicCodes : list string) (s : bool * Loaded.t)
  : Script Loaded.t :=
  let '(errorFound, record) := s in
  if negb errorFound then
    record ← setText h record "custentity_sic_codes" (Many sicCodes);
    sicDescriptions ← getSicDescriptions h sicCodes;
    length ← run (JS.get sicDescriptions "length");
    positive ← run (JS.greater_than length (JNumber PrimFloat.zero));
    if positive : bool then
      value ← run (JS.join sicDescriptions "; ");
      setValue record "custentity_sic_description" (JString value)
    else mret record
  else mret record.

(** The resolver was called: a keyword search on the SIC code table. *)
Definition resolver_called (evs : list Event) : Prop :=
  ∃ keywords, SearchKeywords "customrecord_sic_codes" "name" keywords ∈ evs.

(** The block of [map] that runs when the registry had something to say,
    lines 330-344. *)
Definition update_candidate (h : Host) (clientId : Z) (sicCodes : list string)
    (companyStatus : string) : Script bool :=
  record ← load clientId;
  record ← (if (0 <? List.length sicCodes)%nat
            then updateClientSicCodes h record sicCodes
            else mret record);
  record ← (if JSString.truthy companyStatus
            then record ← updateClientCompanyStatus h record companyStatus;
                 updateClientAccount record companyStatus
            else mret record);
  save record;;
  mret true.

(** The setters of that block alone. *)
Definition apply_updates (h : Host) (record : Loaded.t) (sicCodes : list string)
    (companyStatus : string) : Script Loaded.t :=
  record ← (if (0 <? List.length sicCodes)%nat
            then updateClientSicCodes h record sicCodes
            else mret record);
  if JSString.truthy companyStatus
  then record ← updateClientCompanyStatus h record companyStatus;
       updateClientAccount record companyStatus
  else mret record.

Definition after (w : World) (evs : list Event) : World :=
  {| customers := customers w; trace := (trace w ++ evs)%list |}.

(** The registry had data for the candidate: the lookup went through and
    gave a code or a status. *)
Definition has_data (h : Host) (companyNo : string) : Prop :=
  JSString.truthy companyNo = true ∧
  ∃ sicCodes companyStatus,
    interpreted h companyNo = Return (sicCodes, companyStatus) ∧
    (sicCodes ≠ [] ∨ companyStatus ≠ "").

(** What one attempt leaves selected, and the calls it makes: a text the
    store refuses costs a second call, the one that clears the field. *)
Definition attempt_result (h : Host) (sicCode : string) : list string :=
  match multiselect (sic_option h) (One sicCode) with
  | Some v => v
  | None => []
  end.

Definition refused (h : Host) (sicCode : string) : bool :=
  match multiselect (sic_option h) (One sicCode) with
  | Some _ => false
  | None => true
  end.

Definition attempt_events (h : Host) (id : Z) (sicCode : string) : list Event :=
  if refused h sicCode
  then [ RecordSetText id "custentity_sic_codes" (One sicCode);
         RecordSetText id "custentity_sic_codes" (One "") ]
  else [ RecordSetText id "custentity_sic_codes" (One sicCode) ].

(** The selection after the last attempt of a batch. *)
Definition left_selected (h : Host) (sicCodes current : list string) : list string :=
  match last sicCodes with
  | Some sicCode => attempt_result h sicCode
  | None => current
  end.

(** A request to the registry. *)
Definition is_request (e : Event) : bool :=
  match e with HttpsGet _ _ => true | _ => false end.

(** The address of the registry's company resource. *)
Definition company_url : string := "https://api.companieshouse.gov.uk/company/".

(** A customer the selection is after: active, with a company number. *)
Definition eligible (c : Customer.t) : Prop :=
  Customer.isinactive c = false ∧ Customer.custentity_company_no c ≠ "".

(** The test of [updateClientAccount], as the code computes it. *)
Definition deactivation_test (c : Customer.t) (companyStatus : string) : bool :=
  negb (String.eqb companyStatus "active")
  && JS.strict_equals_number (Customer.balance c) PrimFloat.zero
  && JS.strict_equals_number (Customer.overduebalance c) PrimFloat.zero
  && JS.strict_equals_number (Customer.unbilledorders c) PrimFloat.zero.

(** The object [getSicDescriptions] returns once it has visited [found]. *)
Definition description_object (found : list string) : JSValue :=
  JObject
    ([ ("recodsCount", JNumber PrimFloat.zero); ("records", JArray (JString <$> found)) ] ++
     match found with
     | [] => []
     | _ :: _ => [ ("recordsCount", JNumber PrimFloat.nan) ]
     end).

(** The customer [map] saves for a candidate whose codes and status the
    store accepts: the fields as the setters leave them. *)
Definition updated (c : Customer.t) (sicCodes : list string) (companyStatus : string)
  : Customer.t :=
  let c := if (0 <? List.length sicCodes)%nat then Customer.with_sic_codes sicCodes c else c in
  if JSString.truthy companyStatus then
    let c := Customer.with_company_status companyStatus c in
    if deactivation_test c companyStatus then Customer.with_isinactive true c else c
  else c.

(** ** A small account to run the script on *)

Module Example.

Definition customer (companyNo : string) (balance : JSValue) (inactive : bool) (modified : Z)
  : Customer.t :=
  {| Customer.entityid := "ACME Ltd";
     Customer.custentity_company_no := companyNo;
     Customer.custentity_sic_codes := [];
     Customer.custentity_sic_description := "";
     Customer.custentity_company_status := "";
     Customer.balance := balance;
     Customer.overduebalance := JNumber PrimFloat.zero;
     Customer.unbilledorders := JNumber PrimFloat.zero;
     Customer.isinactive := inactive;
     Customer.lastmodifieddate := modified |}.

(** A platform that offers three SIC codes, takes any status text, finds two
    descriptions, and gets [response] from the registry. *)
Definition host (response : Outcome ClientResponse) : Host :=
  {| api_key := "key";
     base64 := λ text, text;
     https_get := λ _ _, response;
     sic_option := λ text, bool_decide (text ∈ ["620"; "4791"; "62012"]);
     status_option := λ _, true;
     sic_keyword_search := λ _, ["Retail sale via mail order"; "Other software publishing"] |}.

Definition answer (status : Z) (codes : option (list string)) (companyStatus : option string)
  : Outcome ClientResponse :=
  Return {| code := status;
            body := Some (JsonValue {| sic_codes := codes; company_status := companyStatus |}) |}.

Definition world : World :=
  {| customers :=
       <[7 := customer "1234567" (JNumber PrimFloat.zero) false 10]>
         (<[9 := customer "00000001" (JNumber PrimFloat.one) false 30]>
            (<[11 := customer "" (JNumber PrimFloat.zero) false 20]>
               (<[13 := customer "07654321" (JNumber PrimFloat.zero) true 40]> ∅)));
     trace := [] |}.

Definition record : Loaded.t :=
  {| Loaded.id := 7;
     Loaded.fields := customer "1234567" (JNumber PrimFloat.zero) false 10 |}.

Definition candidate (id : Z) (companyNo : string) : Result.t :=
  {| Result.id := id;
     Result.values :=
       {| Values.entityid := "ACME Ltd";
          Values.custentity_company_no := companyNo;
          Values.custentity_sic_codes := [];
          Values.lastmodifieddate := 10 |} |}.

End Example.

(** * Properties *)

(** ** Scripts in general *)

Lemma bind_run {A B} (m : Script A) (f : A → Script B) w :
  (m ≫= f) w =
  match m w with
  | (Return a, w') => f a w'
  | (Throw e, w') => (Throw e, w')
  end.
Proof. reflexivity. Qed.

Lemma emitted_app {A} (s : Script A) w evs :
  trace (s w).2 = (trace w ++ evs)%list → emitted s w = evs.
Proof. unfold emitted. intros ->. apply drop_app_length. Qed.

Lemma behaves_weaken {A} (P P' : Event → Prop) (Q Q' : A → Prop) s :
  behaves P Q s → (∀ e, P e → P' e) → (∀ a, Q a → Q' a) → behaves P' Q' s.
Proof.
  intros Hs HP HQ w. destruct (Hs w) as (Hc & (evs & Ht & Hevs) & Hr).
  split; [exact Hc|]. split.
  - exists evs. split; [exact Ht|]. eapply Forall_impl; eauto.
  - intros a Ha. auto.
Qed.

Lemma behaves_silent {A} (P : Event → Prop) (Q : A → Prop) (o : Outcome A) :
  (∀ a, o = Return a → Q a) → behaves P Q (λ w, (o, w)).
Proof.
  intros HQ w. simpl. split; [reflexivity|]. split; [|exact HQ].
  exists []. rewrite app_nil_r. split; [reflexivity | constructor].
Qed.

Lemma behaves_ret {A} (P : Event → Prop) (Q : A → Prop) a : Q a → behaves P Q (mret a).
Proof. intros HQ. apply behaves_silent. intros a' [= <-]. exact HQ. Qed.

Lemma behaves_throw {A} (P : Event → Prop) (Q : A → Prop) e : behaves P Q (throw e).
Proof. apply behaves_silent. intros a' [=]. Qed.

Lemma behaves_run {A} (P : Event → Prop) (Q : A → Prop) (o : Outcome A) :
  (∀ a, o = Return a → Q a) → behaves P Q (run o).
Proof. apply behaves_silent. Qed.

Lemma behaves_emit (P : Event → Prop) e : P e → behaves P (λ _, True) (emit e).
Proof.
  intros HP w. simpl. split; [reflexivity|]. split.
  - exists [e]. split; [reflexivity | repeat constructor; exact HP].
  - intros; exact I.
Qed.

Lemma behaves_bind {A B} (P : Event → Prop) (Q : A → Prop) (R : B → Prop)
    (m : Script A) (f : A → Script B) :
  behaves P Q m → (∀ a, Q a → behaves P R (f a)) → behaves P R (m ≫= f).
Proof.
  intros Hm Hf w. rewrite bind_run.
  destruct (Hm w) as (Hc & (evs & Ht & Hevs) & Hr).
  destruct (m w) as [[a|e] w'] eqn:Hmw; simpl in *.
  - destruct (Hf a (Hr a eq_refl) w') as (Hc' & (evs' & Ht' & Hevs') & Hr').
    split; [congruence|]. split; [|exact Hr'].
    exists (evs ++ evs')%list. rewrite Ht', Ht, app_assoc. split; [reflexivity|].
    apply Forall_app; split; assumption.
  - split; [exact Hc|]. split; [|intros a [=]].
    exists evs. split; assumption.
Qed.

Lemma behaves_try_catch {A} (P : Event → Prop) (Q : A → Prop)
    (body : Script A) (handler : Error → Script A) :
  behaves P Q body → (∀ err, behaves P Q (handler err)) → behaves P Q (try_catch body handler).
Proof.
  intros Hb Hh w. unfold try_catch.
  destruct (Hb w) as (Hc & (evs & Ht & Hevs) & Hr).
  destruct (body w) as [[a|e] w'] eqn:Hbw; simpl in *.
  - split; [exact Hc|]. split; [|exact Hr]. exists evs. split; assumption.
  - destruct (Hh e w') as (Hc' & (evs' & Ht' & Hevs') & Hr').
    split; [congruence|]. split; [|exact Hr'].
    exists (evs ++ evs')%list. rewrite Ht', Ht, app_assoc. split; [reflexivity|].
    apply Forall_app; split; assumption.
Qed.

Lemma behaves_forEach {A S} (P : Event → Prop) (I : S → Prop)
    (xs : list A) (callback : A → S → Script S) :
  (∀ x s, x ∈ xs → I s → behaves P I (callback x s)) →
  ∀ s, I s → behaves P I (forEach xs callback s).
Proof.
  induction xs as [|x xs IH]; intros Hcb s Hs; simpl.
  - apply behaves_ret. exact Hs.
  - apply behaves_bind with (Q := I).
    + apply Hcb; [left | exact Hs].
    + intros s' Hs'. apply IH; [|exact Hs'].
      intros y t Hy. apply Hcb. right. exact Hy.
Qed.

(** ** C7: the company number *)

Section CharacterClass.

Variable cls : ascii → bool.

Lemma all_Forall s :
  JSString.all cls s = true ↔ Forall (λ c, cls c = true) (chars s).
Proof.
  induction s as [|c s IH]; simpl.
  - split; [constructor | reflexivity].
  - rewrite andb_true_iff, IH. split.
    + intros [Hc Hs]. constructor; assumption.
    + intros H. inversion H; subst. split; assumption.
Qed.

Lemma remove_all s : JSString.all cls s = true → JSString.remove cls s = "".
Proof.
  induction s as [|c s IH]; simpl; [reflexivity|].
  intros [Hc Hs]%andb_true_iff. rewrite Hc. auto.
Qed.

End CharacterClass.

Lemma length_chars s : List.length (chars s) = String.length s.
Proof. induction s; simpl; congruence. Qed.

Lemma digit_not_whitespace c : JSString.digit c = true → JSString.whitespace c = false.
Proof.
  unfold JSString.digit, JSString.whitespace.
  generalize (nat_of_ascii c). intros n H.
  apply andb_true_iff in H as [H1 H2].
  apply Nat.leb_le in H1. apply Nat.leb_le in H2.
  repeat (apply orb_false_iff; split).
  - apply andb_false_iff. right. apply Nat.leb_gt. lia.
  - apply Nat.eqb_neq. lia.
  - apply Nat.eqb_neq. lia.
Qed.

Lemma seven_digits_test raw :
  JSString.match_plus JSString.digit raw && (JSString.length raw =? 7) = true
  ↔ seven_digits raw.
Proof.
  unfold seven_digits, JSString.length. rewrite length_chars, andb_true_iff, Z.eqb_eq.
  rewrite <- all_Forall. split.
  - intros [Hm Hl]. split; [lia|]. destruct raw; [discriminate | exact Hm].
  - intros [Hl Hall]. split; [|lia]. destruct raw; [discriminate | exact Hall].
Qed.

Lemma whitespace_test raw :
  JSString.match_plus JSString.whitespace raw = true ↔ raw ≠ "" ∧ all_whitespace raw.
Proof.
  unfold all_whitespace. rewrite <- all_Forall. destruct raw; simpl.
  - split; [discriminate | intros [H _]; congruence].
  - split; [intros H; split; [discriminate | exact H] | intros [_ H]; exact H].
Qed.

(** The two patterns exclude each other, so the order of the two [if]s does
    not matter. *)
Lemma seven_digits_not_whitespace raw :
  seven_digits raw → JSString.match_plus JSString.whitespace raw = false.
Proof.
  intros [Hl Hd]. destruct raw as [|c raw]; [reflexivity|].
  simpl in *. inversion Hd; subst.
  rewrite (digit_not_whitespace c); auto.
Qed.

(** C7. Identifier normalisation: exactly seven digits get one ["0"] in front
    (eight characters in all); otherwise a raw made of whitespace only becomes
    the empty string; every other raw comes back unchanged. The function is
    total: it has a value for every string. *)
Theorem searchableCompanyId_rules (raw : string) :
  (seven_digits raw →
     searchableCompanyId raw = String "0" raw ∧
     String.length (searchableCompanyId raw) = 8%nat) ∧
  (¬ seven_digits raw → all_whitespace raw → searchableCompanyId raw = "") ∧
  (¬ seven_digits raw → ¬ all_whitespace raw → searchableCompanyId raw = raw).
Proof.
  unfold searchableCompanyId.
  destruct (JSString.match_plus JSString.digit raw && (JSString.length raw =? 7))
    eqn:Hseven.
  - apply seven_digits_test in Hseven as Hs.
    rewrite (seven_digits_not_whitespace raw Hs).
    split; [|split]; [|tauto..].
    intros _. split; [reflexivity|].
    destruct Hs as [Hl _]. rewrite length_chars in Hl.
    change (S (String.length raw) = 8%nat). lia.
  - assert (¬ seven_digits raw) as Hns.
    { intros H. apply seven_digits_test in H. congruence. }
    split; [tauto|]. split; intros _ Hw.
    + destruct (JSString.match_plus JSString.whitespace raw) eqn:Hm.
      * apply remove_all. apply all_Forall. exact Hw.
      * destruct raw; [reflexivity|].
        apply all_Forall in Hw. simpl in Hm, Hw. congruence.
    + destruct (JSString.match_plus JSString.whitespace raw) eqn:Hm; [|reflexivity].
      apply whitespace_test in Hm as [_ Hm]. contradiction.
Qed.

Lemma searchableCompanyId_rules_witness :
  searchableCompanyId "1234567" = "01234567" ∧
  searchableCompanyId (String (ascii_of_nat 32) (String (ascii_of_nat 9) "")) = "" ∧
  searchableCompanyId "SC123456" = "SC123456".
Proof.
  split; [|split].
  - apply (searchableCompanyId_rules "1234567"). split; [reflexivity|].
    repeat constructor.
  - apply (searchableCompanyId_rules (String (ascii_of_nat 32) (String (ascii_of_nat 9) ""))).
    + intros [Hlength _]. discriminate Hlength.
    + repeat constructor.
  - apply (searchableCompanyId_rules "SC123456").
    + intros [Hlength _]. discriminate Hlength.
    + intros Hspace. inversion Hspace as [|c l Hc _]. discriminate Hc.
Defined.

(** ** The record setters *)

Lemma descends_refl record : descends record record.
Proof. split; auto. Qed.

Lemma descends_trans r1 r2 r3 : descends r1 r2 → descends r2 r3 → descends r1 r3.
Proof. intros [Hi1 Ha1] [Hi2 Ha2]. split; [congruence | auto]. Qed.

Lemma setText_behaves h record fieldId text :
  behaves (mutator_event (Loaded.id record)) (descends record) (setText h record fieldId text).
Proof.
  unfold setText.
  apply behaves_bind with (Q := λ _, True); [apply behaves_emit; reflexivity|].
  intros _ _.
  destruct (String.eqb fieldId "custentity_sic_codes").
  { destruct (multiselect _ _); [apply behaves_ret | apply behaves_throw].
    split; auto. }
  destruct (String.eqb fieldId "custentity_company_status").
  { destruct (select _ _); [apply behaves_ret | apply behaves_throw].
    split; auto. }
  apply behaves_throw.
Qed.

Lemma setValue_behaves record fieldId value :
  (fieldId = "isinactive" → value = JBoolean true) →
  behaves (mutator_event (Loaded.id record)) (descends record) (setValue record fieldId value).
Proof.
  intros Hvalue. unfold setValue.
  apply behaves_bind with (Q := λ _, True); [apply behaves_emit; split; auto|].
  intros _ _.
  destruct (String.eqb fieldId "custentity_sic_description").
  { destruct value; try apply behaves_throw. apply behaves_ret. split; auto. }
  destruct (String.eqb fieldId "isinactive") eqn:Hf; [|apply behaves_throw].
  apply String.eqb_eq in Hf. rewrite (Hvalue Hf).
  apply behaves_ret. split; auto.
Qed.

(** ** What [getSicDescriptions] hands back *)

Lemma lookup_store_eq name v properties :
  JS.lookup_property name (JS.store_property name v properties) = v.
Proof.
  induction properties as [|[k old] rest IH]; simpl.
  - rewrite String.eqb_refl. reflexivity.
  - destruct (String.eqb k name) eqn:Hk; simpl; rewrite Hk; auto.
Qed.

Lemma lookup_store_ne name name' v properties :
  name ≠ name' →
  JS.lookup_property name' (JS.store_property name v properties) =
  JS.lookup_property name' properties.
Proof.
  intros Hne. induction properties as [|[k old] rest IH]; simpl.
  - destruct (String.eqb name name') eqn:Hk; [|reflexivity].
    apply String.eqb_eq in Hk. contradiction.
  - destruct (String.eqb k name) eqn:Hk; simpl.
    + apply String.eqb_eq in Hk. subst k.
      destruct (String.eqb name name') eqn:Hk'; [|reflexivity].
      apply String.eqb_eq in Hk'. contradiction.
    + destruct (String.eqb k name'); auto.
Qed.

Lemma description_step data result :
  description_data data →
  ∃ data',
    (records ← JS.get data "records";
     records ← JS.push records (JString result);
     data ← JS.set data "records" records;
     count ← JS.get data "recordsCount";
     count ← JS.add count (JNumber PrimFloat.one);
     JS.set data "recordsCount" count) = Return data' ∧
    description_data data'.
Proof.
  intros (properties & -> & Hlen & (elements & Hrec) & Hcount).
  cbn [JS.get mbind Outcome_bind]. rewrite Hrec.
  cbn [JS.push JS.set mbind Outcome_bind JS.get].
  rewrite lookup_store_ne by discriminate.
  assert (∃ x, JS.add (JS.lookup_property "recordsCount" properties) (JNumber PrimFloat.one)
               = Return (JNumber x)) as [x Hx].
  { destruct Hcount as [-> | [y ->]]; eexists; reflexivity. }
  rewrite Hx. cbn [mbind Outcome_bind JS.set].
  eexists. split; [reflexivity|].
  eexists. split; [reflexivity|].
  rewrite !lookup_store_ne by discriminate. rewrite Hlen.
  split; [reflexivity|]. split.
  - exists (elements ++ [JString result])%list. apply lookup_store_eq.
  - right. exists x. apply lookup_store_eq.
Qed.

Lemma getSicDescriptions_returns h sicCodes w :
  ∃ data,
    getSicDescriptions h sicCodes w =
      (Return data,
       {| customers := customers w;
          trace := (trace w ++ [SearchKeywords "customrecord_sic_codes" "name"
                                  (JSString.join " OR " sicCodes)])%list |}) ∧
    description_data data.
Proof.
  unfold getSicDescriptions. rewrite bind_run. cbn [emit].
  generalize (take each_limit (sic_keyword_search h (JSString.join " OR " sicCodes))).
  intros results.
  match goal with |- context [forEach results ?cb ?d ?w'] =>
    generalize w'; assert (description_data d) as Hd; [|revert Hd; generalize d]
  end.
  { eexists. split; [reflexivity|]. repeat split; eauto. }
  induction results as [|result results IH]; intros data Hdata w'.
  - exists data. split; [reflexivity | exact Hdata].
  - cbn [forEach]. rewrite bind_run.
    destruct (description_step data result Hdata) as (data' & Hstep & Hdata').
    unfold run at 1. rewrite Hstep. apply IH. exact Hdata'.
Qed.

(** [sicDescriptions.length > 0] is false for whatever the search found. *)
Lemma description_data_no_length data :
  description_data data →
  (length ← JS.get data "length"; JS.greater_than length (JNumber PrimFloat.zero))
  = Return false.
Proof.
  intros (properties & -> & Hlen & _). cbn [JS.get mbind Outcome_bind]. rewrite Hlen.
  reflexivity.
Qed.

(** ** [updateClientSicCodes] *)

Lemma same_but_sic_codes_refl record : same_but_sic_codes record record.
Proof.
  exists (Customer.custentity_sic_codes (Loaded.fields record)).
  destruct record as [id []]. reflexivity.
Qed.

Lemma same_but_sic_codes_trans r1 r2 r3 :
  same_but_sic_codes r1 r2 → same_but_sic_codes r2 r3 → same_but_sic_codes r1 r3.
Proof. intros [v ->] [v' ->]. exists v'. reflexivity. Qed.

Lemma same_but_sic_codes_descends record record' :
  same_but_sic_codes record record' → descends record record'.
Proof. intros [v ->]. split; auto. Qed.

Lemma sic_event_mutator id e : sic_event id e → mutator_event id e.
Proof. destruct e; simpl; try tauto. Qed.

Lemma setText_sic_codes_run h record text w :
  setText h record "custentity_sic_codes" text w =
  let w' := {| customers := customers w;
               trace := (trace w ++
                 [RecordSetText (Loaded.id record) "custentity_sic_codes" text])%list |} in
  match multiselect (sic_option h) text with
  | Some v => (Return (Loaded.change (Customer.with_sic_codes v) record), w')
  | None => (Throw (PlatformError "INVALID_FLD_VALUE"), w')
  end.
Proof.
  unfold setText. rewrite bind_run. cbn [emit String.eqb Ascii.eqb Bool.eqb].
  cbn. destruct (multiselect (sic_option h) text); reflexivity.
Qed.

Lemma setText_sic_codes_behaves h r0 record text :
  same_but_sic_codes r0 record →
  behaves (sic_event (Loaded.id r0)) (same_but_sic_codes r0)
    (setText h record "custentity_sic_codes" text).
Proof.
  intros Hr w. rewrite setText_sic_codes_run. cbv zeta.
  assert (Loaded.id record = Loaded.id r0) as Hid by (destruct Hr as [v ->]; reflexivity).
  destruct (multiselect (sic_option h) text) as [v|]; simpl.
  - split; [reflexivity|]. split.
    + eexists. split; [reflexivity|]. repeat constructor. exact Hid.
    + intros a [= <-]. eapply same_but_sic_codes_trans; [exact Hr|]. eexists; reflexivity.
  - split; [reflexivity|]. split.
    + eexists. split; [reflexivity|]. repeat constructor. exact Hid.
    + intros a [=].
Qed.

Lemma getSicDescriptions_behaves h id sicCodes :
  behaves (sic_event id) description_data (getSicDescriptions h sicCodes).
Proof.
  intros w. destruct (getSicDescriptions_returns h sicCodes w) as (data & -> & Hdata).
  simpl. split; [reflexivity|]. split.
  - eexists. split; [reflexivity|]. repeat constructor.
  - intros a [= <-]. exact Hdata.
Qed.

Lemma updateClientSicCodes_steps h record sicCodes :
  updateClientSicCodes h record sicCodes =
  attempts h sicCodes (false, record) ≫= commit h sicCodes.
Proof. reflexivity. Qed.

Lemma attempts_behave h r0 sicCodes s :
  same_but_sic_codes r0 s.2 →
  behaves (sic_event (Loaded.id r0)) (λ s', same_but_sic_codes r0 s'.2) (attempts h sicCodes s).
Proof.
  intros Hs. unfold attempts.
  apply behaves_forEach with (I := λ s', same_but_sic_codes r0 s'.2); [|exact Hs].
  intros sicCode [errorFound r] _ Hr. simpl in Hr.
  apply behaves_try_catch; [|intros err];
    (apply behaves_bind with (Q := same_but_sic_codes r0);
     [apply setText_sic_codes_behaves; exact Hr
     |intros r' Hr'; apply behaves_ret; exact Hr']).
Qed.

Lemma commit_behaves h r0 sicCodes s :
  same_but_sic_codes r0 s.2 →
  behaves (sic_event (Loaded.id r0)) (same_but_sic_codes r0) (commit h sicCodes s).
Proof.
  destruct s as [errorFound r]. intros Hr. simpl in Hr. unfold commit.
  destruct errorFound; cbn [negb]; [apply behaves_ret; exact Hr|].
  apply behaves_bind with (Q := same_but_sic_codes r0).
  { apply setText_sic_codes_behaves. exact Hr. }
  intros r' Hr'.
  apply behaves_bind with (Q := description_data); [apply getSicDescriptions_behaves|].
  intros data Hdata.
  pose proof (description_data_no_length data Hdata) as Hlen.
  apply behaves_bind
    with (Q := λ length, JS.greater_than length (JNumber PrimFloat.zero) = Return false).
  { apply behaves_run. intros length Hl. rewrite Hl in Hlen. exact Hlen. }
  intros length Hlength.
  apply behaves_bind with (Q := λ positive, positive = false).
  { apply behaves_run. intros positive Hp. congruence. }
  intros positive ->. apply behaves_ret. exact Hr'.
Qed.

(** Whatever the codes and whatever the store makes of them, the function
    touches the SIC codes of the record and nothing else: no other field,
    the description included, is written. *)
Lemma updateClientSicCodes_writes_codes_only h record sicCodes :
  behaves (sic_event (Loaded.id record)) (same_but_sic_codes record)
    (updateClientSicCodes h record sicCodes).
Proof.
  rewrite updateClientSicCodes_steps.
  apply behaves_bind with (Q := λ s : bool * Loaded.t, same_but_sic_codes record s.2).
  - apply attempts_behave. apply same_but_sic_codes_refl.
  - intros s Hs. apply commit_behaves. exact Hs.
Qed.

Lemma updateClientSicCodes_behaves h record sicCodes :
  behaves (mutator_event (Loaded.id record)) (descends record)
    (updateClientSicCodes h record sicCodes).
Proof.
  eapply behaves_weaken.
  - apply updateClientSicCodes_writes_codes_only.
  - apply sic_event_mutator.
  - apply same_but_sic_codes_descends.
Qed.

(** The single attempts of a batch the store accepts throughout: one
    [setText] per code, in order, none of them caught. *)
Lemma attempts_accepted h id sicCodes :
  forallb (sic_option h) sicCodes = true →
  ∀ (errorFound : bool) record w,
    Loaded.id record = id →
    ∃ record',
      attempts h sicCodes (errorFound, record) w =
      (Return (errorFound, record'),
       {| customers := customers w;
          trace := (trace w ++
            ((λ c, RecordSetText id "custentity_sic_codes" (One c)) <$> sicCodes))%list |}) ∧
      same_but_sic_codes record record'.
Proof.
  unfold attempts.
  induction sicCodes as [|sicCode sicCodes IH]; intros Hall errorFound record w Hid.
  - exists record. cbn. rewrite app_nil_r. split; [|apply same_but_sic_codes_refl].
    destruct w; reflexivity.
  - cbn [forallb] in Hall. apply andb_true_iff in Hall as [Hcode Hall].
    assert (∃ v, multiselect (sic_option h) (One sicCode) = Some v) as [v Hv].
    { unfold multiselect. destruct sicCode; [eauto|]. rewrite Hcode. eauto. }
    cbn [forEach]. rewrite bind_run. unfold try_catch at 1.
    rewrite bind_run, setText_sic_codes_run, Hv. cbv zeta. cbn [mret Script_ret].
    edestruct (IH Hall errorFound (Loaded.change (Customer.with_sic_codes v) record))
      as (record' & -> & Hrecord'); [exact Hid|].
    exists record'. split.
    + cbn [customers trace fmap list_fmap]. rewrite Hid, <- app_assoc. reflexivity.
    + eapply same_but_sic_codes_trans; [|exact Hrecord']. eexists; reflexivity.
Qed.

(** The whole call on such a batch. *)
Lemma updateClientSicCodes_accepted h record sicCodes w :
  forallb (sic_option h) sicCodes = true →
  updateClientSicCodes h record sicCodes w =
    (Return (Loaded.change (Customer.with_sic_codes sicCodes) record),
     {| customers := customers w;
        trace := (trace w ++
          ((λ c, RecordSetText (Loaded.id record) "custentity_sic_codes" (One c)) <$> sicCodes) ++
          [ RecordSetText (Loaded.id record) "custentity_sic_codes" (Many sicCodes);
            SearchKeywords "customrecord_sic_codes" "name" (JSString.join " OR " sicCodes) ])%list |}).
Proof.
  intros Hall. rewrite updateClientSicCodes_steps, bind_run.
  destruct (attempts_accepted h (Loaded.id record) sicCodes Hall false record w eq_refl)
    as (record' & -> & [v ->]).
  unfold commit. cbn [negb]. rewrite bind_run, setText_sic_codes_run. cbn [multiselect].
  rewrite Hall. cbv zeta. rewrite bind_run.
  match goal with |- context [getSicDescriptions h sicCodes ?w'] =>
    destruct (getSicDescriptions_returns h sicCodes w') as (data & -> & Hdata)
  end.
  pose proof (description_data_no_length data Hdata) as Hlen.
  rewrite bind_run. unfold run at 1.
  destruct (JS.get data "length") as [length|e] eqn:Hget; [|discriminate].
  cbn [mbind Outcome_bind] in Hlen. rewrite bind_run. unfold run at 1. rewrite Hlen.
  cbn. rewrite <- !app_assoc. reflexivity.
Qed.

(** ** C1: a rejected code followed by an accepted one *)

(** C1 (the code departs from it). The store offers 620 and not 9999. On the
    batch 9999, 620 the call returns with 620 selected on the record: the
    rejection cleared the field, the next attempt set it again, and nothing
    clears it afterwards. The batch 620, 9999, in the other order, does leave
    the field empty. *)
Theorem updateClientSicCodes_keeps_code_after_rejection :
  let h := Example.host (Example.answer 200 None None) in
  sic_option h "9999" = false ∧ sic_option h "620" = true ∧
  (∃ record' w',
     updateClientSicCodes h Example.record ["9999"; "620"] Example.world = (Return record', w') ∧
     Customer.custentity_sic_codes (Loaded.fields record') = ["620"] ∧
     emitted (updateClientSicCodes h Example.record ["9999"; "620"]) Example.world =
       [ RecordSetText 7 "custentity_sic_codes" (One "9999");
         RecordSetText 7 "custentity_sic_codes" (One "");
         RecordSetText 7 "custentity_sic_codes" (One "620") ]) ∧
  (∃ record' w',
     updateClientSicCodes h Example.record ["620"; "9999"] Example.world = (Return record', w') ∧
     Customer.custentity_sic_codes (Loaded.fields record') = []).
Proof.
  cbv zeta. split; [reflexivity|]. split; [reflexivity|]. split.
  - eexists _, _. split; [vm_compute; reflexivity|]. split; reflexivity.
  - eexists _, _. split; [vm_compute; reflexivity|]. reflexivity.
Qed.

(** ** C4: the description resolver *)

(** C4 as stated fails: one code, accepted by the store, and the resolver is
    called all the same. *)
Lemma resolver_called_for_single_code :
  let h := Example.host (Example.answer 200 None None) in
  forallb (sic_option h) ["620"] = true ∧
  List.length ["620"] = 1%nat ∧
  resolver_called (emitted (updateClientSicCodes h Example.record ["620"]) Example.world).
Proof.
  cbv zeta. split; [reflexivity|]. split; [reflexivity|].
  exists "620". vm_compute. apply list_elem_of_In. simpl. auto.
Qed.

(** C4, amended. When the store accepts every code of the batch, the call
    returns, the classification field holds the batch in its order, and the
    description resolver is called with the codes joined by " OR " - for a
    batch of any length, a single code included. *)
Theorem updateClientSicCodes_accepted_batch h record sicCodes w :
  forallb (sic_option h) sicCodes = true →
  ∃ record' w',
    updateClientSicCodes h record sicCodes w = (Return record', w') ∧
    Customer.custentity_sic_codes (Loaded.fields record') = sicCodes ∧
    SearchKeywords "customrecord_sic_codes" "name" (JSString.join " OR " sicCodes)
      ∈ emitted (updateClientSicCodes h record sicCodes) w ∧
    resolver_called (emitted (updateClientSicCodes h record sicCodes) w).
Proof.
  intros Hall. pose proof (updateClientSicCodes_accepted h record sicCodes w Hall) as Hrun.
  eexists _, _. split; [exact Hrun|]. split; [reflexivity|].
  assert (SearchKeywords "customrecord_sic_codes" "name" (JSString.join " OR " sicCodes)
            ∈ emitted (updateClientSicCodes h record sicCodes) w) as Hin.
  { erewrite emitted_app; [|rewrite Hrun; reflexivity].
    apply elem_of_app. right. apply list_elem_of_In. simpl. auto. }
  split; [exact Hin|]. eexists. exact Hin.
Qed.

Lemma updateClientSicCodes_accepted_batch_witness :
  let h := Example.host (Example.answer 200 None None) in
  resolver_called
    (emitted (updateClientSicCodes h Example.record ["620"; "4791"]) Example.world).
Proof.
  cbv zeta.
  destruct (updateClientSicCodes_accepted_batch
              (Example.host (Example.answer 200 None None)) Example.record
              ["620"; "4791"] Example.world) as (record' & w' & _ & _ & _ & Hcalled).
  - reflexivity.
  - exact Hcalled.
Defined.

(** ** C2: the deactivation guard *)

Lemma float_equals_zero (x : float) :
  PrimFloat.eqb x PrimFloat.zero = true ↔ x = PrimFloat.zero ∨ x = PrimFloat.neg_zero.
Proof.
  split.
  - rewrite FloatAxioms.eqb_spec. intros H.
    rewrite <- (FloatAxioms.SF2Prim_Prim2SF x).
    change (FloatOps.Prim2SF PrimFloat.zero) with (SpecFloat.S754_zero false) in H.
    destruct (FloatOps.Prim2SF x) as [[]|s| |s m e]; cbn in H.
    + right. reflexivity.
    + left. reflexivity.
    + destruct s; discriminate H.
    + discriminate H.
    + destruct s; discriminate H.
  - intros [-> | ->]; reflexivity.
Qed.

Lemma strict_equals_zero (v : JSValue) :
  JS.strict_equals_number v PrimFloat.zero = true ↔ exactly_zero v.
Proof.
  unfold exactly_zero. destruct v; simpl; try (split; [discriminate | intros [|]; discriminate]).
  rewrite float_equals_zero. split.
  - intros [-> | ->]; auto.
  - intros [[= ->] | [= ->]]; auto.
Qed.

(** C2. [updateClientAccount] sets the inactive flag to [true] exactly when
    the status differs from "active" (as written, case and all) and balance,
    overdue balance and unbilled orders are each the number zero. In every
    other case - the status is "active", or one of the three is not zero - it
    makes no call on the record and hands it back as it was. *)
Theorem updateClientAccount_deactivates_iff record companyStatus w :
  ∃ record' w',
    updateClientAccount record companyStatus w = (Return record', w') ∧
    customers w' = customers w ∧
    (deactivation_due (Loaded.fields record) companyStatus →
       record' = Loaded.change (Customer.with_isinactive true) record ∧
       emitted (updateClientAccount record companyStatus) w =
         [RecordSetValue (Loaded.id record) "isinactive" (JBoolean true)]) ∧
    (¬ deactivation_due (Loaded.fields record) companyStatus → record' = record ∧ w' = w).
Proof.
  unfold updateClientAccount, deactivation_due. cbv zeta.
  cbn [getValue String.eqb Ascii.eqb Bool.eqb].
  destruct (String.eqb companyStatus "active") eqn:Hstatus; cbn [negb].
  { apply String.eqb_eq in Hstatus. exists record, w.
    split; [reflexivity|]. split; [reflexivity|]. split; [tauto | auto]. }
  apply String.eqb_neq in Hstatus.
  destruct (JS.strict_equals_number (Customer.balance (Loaded.fields record)) PrimFloat.zero
            && JS.strict_equals_number (Customer.overduebalance (Loaded.fields record))
                 PrimFloat.zero
            && JS.strict_equals_number (Customer.unbilledorders (Loaded.fields record))
                 PrimFloat.zero) eqn:Hzero.
  - eexists _, _. split; [reflexivity|]. split; [reflexivity|].
    apply andb_true_iff in Hzero as [[Hb Ho]%andb_true_iff Hu].
    apply strict_equals_zero in Hb, Ho, Hu.
    split; [|tauto]. intros _. split; [reflexivity|].
    apply emitted_app. reflexivity.
  - exists record, w. split; [reflexivity|]. split; [reflexivity|].
    split; [|auto]. intros (_ & Hb & Ho & Hu).
    apply strict_equals_zero in Hb, Ho, Hu. rewrite Hb, Ho, Hu in Hzero. discriminate.
Qed.

Lemma updateClientAccount_deactivates_iff_witness :
  let record := {| Loaded.id := 9;
                   Loaded.fields := Example.customer "00000001" (JNumber PrimFloat.one) false 30 |} in
  (∃ w', updateClientAccount Example.record "dissolved" Example.world
         = (Return (Loaded.change (Customer.with_isinactive true) Example.record), w')) ∧
  (∃ record' w',
     updateClientAccount record "dissolved" Example.world = (Return record', w') ∧
     record' = record ∧ w' = Example.world).
Proof.
  cbv zeta. split.
  - destruct (updateClientAccount_deactivates_iff Example.record "dissolved" Example.world)
      as (record' & w' & Hrun & _ & Hdue & _).
    destruct Hdue as [-> _].
    + split; [discriminate|]. repeat split; left; reflexivity.
    + exists w'. exact Hrun.
  - destruct (updateClientAccount_deactivates_iff
                {| Loaded.id := 9;
                   Loaded.fields :=
                     Example.customer "00000001" (JNumber PrimFloat.one) false 30 |}
                "dissolved" Example.world)
      as (record' & w' & Hrun & _ & _ & Hnot).
    exists record', w'. split; [exact Hrun|]. apply Hnot.
    intros (_ & [H | H] & _); discriminate H.
Defined.

(** ** C3, C6: reading the response *)

(** C3 as stated fails: a 404 whose body is not JSON. [JSON.parse] runs
    before the status code is looked at, and both readers throw. *)
Lemma non_200_with_unparsable_body :
  let response := {| code := 404; body := None |} in
  code response ≠ 200 ∧
  getSicCodesFromCompaniesHouseResponse response = Throw SyntaxError ∧
  getCompanyStatusFromCompaniesHouseResponse response = Throw SyntaxError.
Proof. cbv zeta. split; [discriminate|]. split; reflexivity. Qed.

(** C3, amended. For a response whose status code is not 200 and whose body
    parses as JSON - whatever it parses to - the codes are empty and the
    status is the empty string; property reads are not even attempted. A body
    that does not parse makes both readers throw, whatever the status code. *)
Theorem non_200_response_is_empty response :
  code response ≠ 200 →
  (∀ json, body response = Some json →
     getSicCodesFromCompaniesHouseResponse response = Return [] ∧
     getCompanyStatusFromCompaniesHouseResponse response = Return "") ∧
  (body response = None →
     getSicCodesFromCompaniesHouseResponse response = Throw SyntaxError ∧
     getCompanyStatusFromCompaniesHouseResponse response = Throw SyntaxError).
Proof.
  intros Hcode. apply Z.eqb_neq in Hcode.
  unfold getSicCodesFromCompaniesHouseResponse, getCompanyStatusFromCompaniesHouseResponse.
  split.
  - intros json ->. cbn [JSON_parse mbind Outcome_bind]. rewrite Hcode. split; reflexivity.
  - intros ->. split; reflexivity.
Qed.

Lemma non_200_response_is_empty_witness :
  let not_found :=
    {| code := 404;
       body := Some (JsonValue {| sic_codes := None; company_status := None |}) |} in
  let null_body := {| code := 500; body := Some JsonNull |} in
  (getSicCodesFromCompaniesHouseResponse not_found = Return [] ∧
   getCompanyStatusFromCompaniesHouseResponse not_found = Return "") ∧
  (getSicCodesFromCompaniesHouseResponse null_body = Return [] ∧
   getCompanyStatusFromCompaniesHouseResponse null_body = Return "").
Proof.
  cbv zeta. split.
  - eapply (non_200_response_is_empty
              {| code := 404;
                 body := Some (JsonValue {| sic_codes := None; company_status := None |}) |});
      [discriminate | reflexivity].
  - eapply (non_200_response_is_empty {| code := 500; body := Some JsonNull |});
      [discriminate | reflexivity].
Defined.

Lemma push_each {A B} (f : A → B) (xs : list A) (acc : list B) :
  fold_left (λ acc x, (acc ++ [f x])%list) xs acc = (acc ++ (f <$> xs))%list.
Proof.
  revert acc. induction xs as [|x xs IH]; intros acc; simpl.
  - rewrite app_nil_r. reflexivity.
  - rewrite IH, <- app_assoc. reflexivity.
Qed.

Lemma substring_whole s : substring 0 (String.length s) s = s.
Proof. induction s as [|c s IH]; simpl; [reflexivity | f_equal; exact IH]. Qed.

Lemma usableCode_leading_zero rest : usableCode (String "0" rest) = rest.
Proof.
  unfold usableCode, JSString.slice, JSString.slice_from. simpl.
  rewrite Nat.sub_0_r, substring_whole.
  replace (substring 0 0 rest) with "" by (destruct rest; reflexivity).
  reflexivity.
Qed.

Lemma usableCode_other code : (∀ rest, code ≠ String "0" rest) → usableCode code = code.
Proof.
  intros Hcode. unfold usableCode, JSString.slice. destruct code as [|c code]; [reflexivity|].
  simpl. replace (substring 0 0 code) with "" by (destruct code; reflexivity).
  destruct (Ascii.eqb c "0") eqn:Hc; [|reflexivity].
  apply Ascii.eqb_eq in Hc. subst c. destruct (Hcode code). reflexivity.
Qed.

(** C6. On a 200 response with a list of SIC codes the reader returns a list
    of the same length, code for code in the same positions: a code that
    starts with "0" comes out without that one character (whatever follows
    it, further zeros included), every other code comes out as it is. Nothing
    is dropped, merged or reordered. *)
Theorem sic_codes_lose_one_leading_zero response profile codes :
  code response = 200 →
  body response = Some (JsonValue profile) →
  sic_codes profile = Some codes →
  ∃ sicCodes,
    getSicCodesFromCompaniesHouseResponse response = Return sicCodes ∧
    List.length sicCodes = List.length codes ∧
    ∀ (i : nat) code, codes !! i = Some code →
      (∀ rest, code = String "0" rest → sicCodes !! i = Some rest) ∧
      ((∀ rest, code ≠ String "0" rest) → sicCodes !! i = Some code).
Proof.
  intros Hcode Hbody Hcodes.
  exists (usableCode <$> codes).
  unfold getSicCodesFromCompaniesHouseResponse. rewrite Hbody, Hcode.
  cbn [JSON_parse mbind Outcome_bind Z.eqb Pos.eqb read_sic_codes]. rewrite Hcodes.
  rewrite push_each. split; [reflexivity|]. split; [apply length_fmap|].
  intros i code Hi. rewrite list_lookup_fmap, Hi. simpl. split.
  - intros rest ->. rewrite usableCode_leading_zero. reflexivity.
  - intros Hother. rewrite usableCode_other by exact Hother. reflexivity.
Qed.

Lemma sic_codes_lose_one_leading_zero_witness :
  ∃ sicCodes,
    getSicCodesFromCompaniesHouseResponse
      {| code := 200;
         body := Some (JsonValue {| sic_codes := Some ["0620"; "4791"; "0620"; "00110"];
                                    company_status := Some "active" |}) |}
    = Return sicCodes ∧
    sicCodes !! 3%nat = Some "0110" ∧ sicCodes !! 1%nat = Some "4791".
Proof.
  destruct (sic_codes_lose_one_leading_zero
              {| code := 200;
                 body := Some (JsonValue {| sic_codes := Some ["0620"; "4791"; "0620"; "00110"];
                                            company_status := Some "active" |}) |}
              {| sic_codes := Some ["0620"; "4791"; "0620"; "00110"];
                 company_status := Some "active" |}
              ["0620"; "4791"; "0620"; "00110"] eq_refl eq_refl eq_refl)
    as (sicCodes & Hrun & _ & Heach).
  exists sicCodes. split; [exact Hrun|]. split.
  - apply (Heach 3%nat "00110" eq_refl). reflexivity.
  - apply (Heach 1%nat "4791" eq_refl). intros rest. discriminate.
Defined.

(** ** [map], step by step *)

Lemma after_nil w : after w [] = w.
Proof. destruct w. unfold after. simpl. rewrite app_nil_r. reflexivity. Qed.

Lemma after_after w evs evs' : after (after w evs) evs' = after w (evs ++ evs').
Proof. unfold after. simpl. rewrite app_assoc. reflexivity. Qed.

Lemma getCompaniesHouseApiResponse_run h companyId w :
  getCompaniesHouseApiResponse h companyId w =
  (lookup h companyId, after w (lookup_events h companyId)).
Proof.
  unfold getCompaniesHouseApiResponse, getApiKey, lookup, lookup_events, after.
  cbv zeta. rewrite !bind_run. cbn [emit mret Script_ret customers trace].
  rewrite !bind_run. cbn [emit customers trace]. rewrite bind_run. unfold run.
  rewrite <- app_assoc. cbn [app].
  destruct (https_get h _ _); reflexivity.
Qed.

Lemma map_run h value w :
  let companyNo := Values.custentity_company_no (Result.values value) in
  map h value w =
  if negb (JSString.truthy companyNo) then (Return true, w)
  else
    let w' := after w (lookup_events h companyNo) in
    match interpreted h companyNo with
    | Throw e => (Throw e, w')
    | Return (sicCodes, companyStatus) =>
        if (0 <? List.length sicCodes)%nat || JSString.truthy companyStatus
        then update_candidate h (Result.id value) sicCodes companyStatus w'
        else (Return true, w')
    end.
Proof.
  cbv zeta. unfold map, interpreted.
  destruct (negb (JSString.truthy _)); [reflexivity|].
  rewrite bind_run, getCompaniesHouseApiResponse_run.
  destruct (lookup h _) as [response|e]; [|reflexivity].
  cbn [mbind Outcome_bind]. rewrite bind_run. unfold run at 1.
  destruct (getSicCodesFromCompaniesHouseResponse response) as [sicCodes|e]; [|reflexivity].
  cbn [mbind Outcome_bind]. rewrite bind_run. unfold run at 1.
  destruct (getCompanyStatusFromCompaniesHouseResponse response) as [companyStatus|e];
    [|reflexivity].
  cbn [mbind Outcome_bind mret Outcome_ret].
  destruct (_ || _); reflexivity.
Qed.

Lemma updateClientAccount_behaves record companyStatus :
  behaves (mutator_event (Loaded.id record)) (descends record)
    (updateClientAccount record companyStatus).
Proof.
  unfold updateClientAccount. cbv zeta.
  destruct (negb _); [|apply behaves_ret, descends_refl].
  destruct (_ && _); [|apply behaves_ret, descends_refl].
  apply setValue_behaves. reflexivity.
Qed.

Lemma status_updates_behave h r0 record companyStatus :
  descends r0 record →
  behaves (mutator_event (Loaded.id r0)) (descends r0)
    (if JSString.truthy companyStatus
     then updateClientCompanyStatus h record companyStatus
          ≫= λ record, updateClientAccount record companyStatus
     else mret record).
Proof.
  intros [Hid Hr].
  destruct (JSString.truthy companyStatus); [|apply behaves_ret; split; assumption].
  apply behaves_bind with (Q := descends r0).
  - unfold updateClientCompanyStatus. rewrite <- Hid.
    eapply behaves_weaken; [apply setText_behaves | auto |].
    intros r' Hr'. eapply descends_trans; [split; eassumption | exact Hr'].
  - intros r' [Hid' Hr']. rewrite <- Hid'.
    eapply behaves_weaken; [apply updateClientAccount_behaves | auto |].
    intros r'' Hr''. eapply descends_trans; [split; eassumption | exact Hr''].
Qed.

Lemma apply_updates_behaves h record sicCodes companyStatus :
  behaves (mutator_event (Loaded.id record)) (descends record)
    (apply_updates h record sicCodes companyStatus).
Proof.
  unfold apply_updates.
  apply behaves_bind with (Q := descends record).
  - destruct (0 <? _)%nat; [apply updateClientSicCodes_behaves | apply behaves_ret, descends_refl].
  - intros r Hr. apply status_updates_behave. exact Hr.
Qed.

(** The three ways the block can go: the record is not there; a setter
    throws and nothing is saved; or the setters run through and the record
    object is saved, once, at the end. *)
Lemma update_candidate_cases h id sicCodes companyStatus w :
  (customers w !! id = None ∧
   update_candidate h id sicCodes companyStatus w =
     (Throw (PlatformError "RCRD_DSNT_EXIST"), after w [RecordLoad id])) ∨
  (∃ c evs,
     customers w !! id = Some c ∧
     evs = emitted (apply_updates h {| Loaded.id := id; Loaded.fields := c |}
                      sicCodes companyStatus) (after w [RecordLoad id]) ∧
     Forall (mutator_event id) evs ∧
     ((∃ e, update_candidate h id sicCodes companyStatus w =
              (Throw e, after w (RecordLoad id :: evs))) ∨
      (∃ record',
         descends {| Loaded.id := id; Loaded.fields := c |} record' ∧
         update_candidate h id sicCodes companyStatus w =
           (Return true,
            {| customers := <[id := Loaded.fields record']> (customers w);
               trace := (trace w ++ RecordLoad id :: evs ++ [RecordSave id])%list |})))).
Proof.
  unfold update_candidate, load.
  rewrite !bind_run. cbn [emit]. rewrite bind_run. cbn [stored customers].
  destruct (customers w !! id) as [c|] eqn:Hc; [right | left; split; reflexivity].
  cbn [mret Script_ret].
  set (record := {| Loaded.id := id; Loaded.fields := c |}).
  set (w1 := {| customers := customers w; trace := (trace w ++ [RecordLoad id])%list |}).
  change (after w [RecordLoad id]) with w1.
  destruct (apply_updates_behaves h record sicCodes companyStatus w1)
    as (Hstore & (evs & Htrace & Hevs) & Hret).
  exists c, evs. split; [reflexivity|].
  split; [symmetry; apply emitted_app; exact Htrace|]. split; [exact Hevs|].
  unfold apply_updates in Hstore, Htrace, Hret. rewrite bind_run in Hstore, Htrace, Hret.
  rewrite bind_run.
  destruct ((if (0 <? List.length sicCodes)%nat
             then updateClientSicCodes h record sicCodes else mret record) w1)
    as [[r1|e1] w2] eqn:Hsic.
  - rewrite bind_run.
    destruct ((if JSString.truthy companyStatus
               then updateClientCompanyStatus h r1 companyStatus
                    ≫= λ record0, updateClientAccount record0 companyStatus
               else mret r1) w2) as [[r2|e2] w3] eqn:Hstatus.
    + right. exists r2. split; [apply Hret; reflexivity|].
      simpl in Hstore, Htrace. destruct (Hret r2 eq_refl) as [Hid _].
      unfold save. rewrite !bind_run. cbn [emit store mret Script_ret customers trace].
      rewrite bind_run. cbn [store customers trace mret Script_ret].
      rewrite Hstore, Htrace, Hid. subst w1. cbn [customers trace Loaded.id record].
      rewrite <- !app_assoc. reflexivity.
    + left. exists e2. simpl in Hstore, Htrace. f_equal.
      destruct w3. unfold after. simpl in *. subst. rewrite <- app_assoc. reflexivity.
  - left. exists e1. simpl in Hstore, Htrace. f_equal.
    destruct w2. unfold after. simpl in *. subst. rewrite <- app_assoc. reflexivity.
Qed.

Lemma truthy_false s : JSString.truthy s = false ↔ s = "".
Proof.
  unfold JSString.truthy. rewrite negb_false_iff. apply String.eqb_eq.
Qed.

Lemma no_data_test (sicCodes : list string) companyStatus :
  (0 <? List.length sicCodes)%nat || JSString.truthy companyStatus = false
  ↔ sicCodes = [] ∧ companyStatus = "".
Proof.
  rewrite orb_false_iff, truthy_false, Nat.ltb_ge.
  destruct sicCodes; simpl; split; intros [H1 H2]; split; auto; try lia; discriminate.
Qed.

(** Every way a call of [map] can go. Without data the stored customers are
    as before and the only calls are those of the lookup. With data the
    record is loaded, the setters run, and the record is saved once at the
    end unless the load or a setter threw. *)
Lemma map_summary h value w :
  let companyNo := Values.custentity_company_no (Result.values value) in
  let id := Result.id value in
  ∃ evs,
    trace (map h value w).2 = (trace w ++ evs)%list ∧
    ((¬ has_data h companyNo ∧
      customers (map h value w).2 = customers w ∧
      (evs = [] ∨ evs = lookup_events h companyNo) ∧
      ((map h value w).1 = Return true ∨
       ∃ e, interpreted h companyNo = Throw e ∧ (map h value w).1 = Throw e)) ∨
     (has_data h companyNo ∧
      ∃ evs', Forall (mutator_event id) evs' ∧
        ((customers (map h value w).2 = customers w ∧
          evs = (lookup_events h companyNo ++ RecordLoad id :: evs')%list ∧
          ∃ e, (map h value w).1 = Throw e) ∨
         (∃ c record',
            customers w !! id = Some c ∧
            descends {| Loaded.id := id; Loaded.fields := c |} record' ∧
            customers (map h value w).2 = <[id := Loaded.fields record']> (customers w) ∧
            evs = (lookup_events h companyNo ++ RecordLoad id :: evs' ++ [RecordSave id])%list ∧
            (map h value w).1 = Return true)))).
Proof.
  cbv zeta. rewrite map_run. cbv zeta.
  set (companyNo := Values.custentity_company_no (Result.values value)).
  set (id := Result.id value).
  destruct (JSString.truthy companyNo) eqn:Htruthy; cbn [negb].
  2:{ exists []. rewrite app_nil_r. split; [reflexivity|]. left.
      split; [intros [H _]; congruence|]. repeat split; auto. }
  destruct (interpreted h companyNo) as [[sicCodes companyStatus]|e] eqn:Hint.
  2:{ exists (lookup_events h companyNo). split; [reflexivity|]. left.
      split; [intros (_ & ? & ? & H & _); rewrite Hint in H; discriminate|].
      split; [reflexivity|]. split; [right; reflexivity|].
      right. exists e. split; reflexivity. }
  destruct ((0 <? List.length sicCodes)%nat || JSString.truthy companyStatus) eqn:Hdata.
  2:{ exists (lookup_events h companyNo). split; [reflexivity|]. left.
      apply no_data_test in Hdata as [-> ->].
      split.
      { intros (_ & ? & ? & H & Hne). rewrite Hint in H. injection H as <- <-.
        destruct Hne; congruence. }
      split; [reflexivity|]. split; [right; reflexivity|]. left. reflexivity. }
  assert (has_data h companyNo) as Hhas.
  { split; [exact Htruthy|]. exists sicCodes, companyStatus. split; [exact Hint|].
    destruct sicCodes; [right | left; discriminate].
    simpl in Hdata. intros ->. discriminate. }
  destruct (update_candidate_cases h id sicCodes companyStatus
              (after w (lookup_events h companyNo)))
    as [[Hnone ->] | (c & evs' & Hc & _ & Hevs' & [[e ->] | (record' & Hrec & ->)])].
  - exists (lookup_events h companyNo ++ [RecordLoad id])%list.
    rewrite after_after. split; [reflexivity|]. right. split; [exact Hhas|].
    exists []. split; [constructor|]. left.
    split; [reflexivity|]. split; [reflexivity|]. eexists; reflexivity.
  - exists (lookup_events h companyNo ++ RecordLoad id :: evs')%list.
    rewrite after_after. split; [reflexivity|]. right. split; [exact Hhas|].
    exists evs'. split; [exact Hevs'|]. left.
    split; [reflexivity|]. split; [reflexivity|]. eexists; reflexivity.
  - exists (lookup_events h companyNo ++ RecordLoad id :: evs' ++ [RecordSave id])%list.
    split; [cbn [snd trace after]; rewrite <- app_assoc; reflexivity|].
    right. split; [exact Hhas|].
    exists evs'. split; [exact Hevs'|]. right. exists c, record'.
    split; [exact Hc|]. split; [exact Hrec|]. repeat split; reflexivity.
Qed.

Lemma mutator_events_no_load_save id evs :
  Forall (mutator_event id) evs →
  List.filter is_load evs = [] ∧ List.filter is_save evs = [] ∧
  Forall (λ e, is_load e = false ∧ is_save e = false) evs.
Proof.
  induction 1 as [|e evs He _ (IHl & IHs & IH)]; [repeat split; constructor|].
  destruct e; simpl in He; try contradiction; simpl; repeat split; auto.
Qed.

Lemma has_data_not_empty h companyNo :
  has_data h companyNo → interpreted h companyNo ≠ Return ([], "").
Proof. intros (_ & sicCodes & companyStatus & -> & [H | H]) [= -> ->]; congruence. Qed.

(** ** C8: a candidate without data is left alone *)

(** C8. When the registry's answer reads as no codes and no status, [map]
    returns [true], the stored customers are what they were and no call is
    made on any record: no load, no setter, no save. The other way round, a
    call on a record or a change of the stored customers happens only for a
    candidate with data (a code or a status). In every run [map] loads at
    most once and saves at most once, and only the candidate's own record. *)
Theorem map_touches_record_only_with_data h value w :
  let companyNo := Values.custentity_company_no (Result.values value) in
  let id := Result.id value in
  let events := emitted (map h value) w in
  (interpreted h companyNo = Return ([], "") →
     (map h value w).1 = Return true ∧
     customers (map h value w).2 = customers w ∧
     Forall (λ e, record_event e = false) events) ∧
  (Exists (λ e, record_event e = true) events ∨ customers (map h value w).2 ≠ customers w →
     has_data h companyNo) ∧
  (List.length (List.filter is_load events) ≤ 1)%nat ∧
  (List.length (List.filter is_save events) ≤ 1)%nat ∧
  Forall (λ e, (is_load e = true → e = RecordLoad id) ∧
               (is_save e = true → e = RecordSave id)) events.
Proof.
  cbv zeta.
  destruct (map_summary h value w) as (evs & Htrace & Hcases). cbv zeta in Hcases.
  rewrite (emitted_app _ _ _ Htrace).
  assert (Forall (λ e, record_event e = false) (lookup_events h
            (Values.custentity_company_no (Result.values value)))) as Hquiet.
  { repeat constructor. }
  assert (Forall (λ e, (is_load e = true → e = RecordLoad (Result.id value)) ∧
                       (is_save e = true → e = RecordSave (Result.id value)))
            (lookup_events h (Values.custentity_company_no (Result.values value)))) as Hnone.
  { repeat constructor; discriminate. }
  destruct Hcases as [(Hno & Hstore & Hevs & Hout) | (Hhas & evs' & Hevs' & Hcases)].
  - split; [|split; [|split; [|split]]].
    + intros Hint. split; [|split; [exact Hstore|]].
      * destruct Hout as [Hout | (e & He & _)]; [exact Hout | congruence].
      * destruct Hevs as [-> | ->]; [constructor | exact Hquiet].
    + intros [Hex | Hne]; [|contradiction].
      apply Exists_exists in Hex as (e & He & Hrec).
      destruct Hevs as [-> | ->]; [inversion He|].
      rewrite Forall_forall in Hquiet. rewrite (Hquiet e He) in Hrec. discriminate.
    + destruct Hevs as [-> | ->]; simpl; lia.
    + destruct Hevs as [-> | ->]; simpl; lia.
    + destruct Hevs as [-> | ->]; [constructor | exact Hnone].
  - destruct (mutator_events_no_load_save _ _ Hevs') as (Hl & Hs & Hls).
    assert (Forall (λ e, (is_load e = true → e = RecordLoad (Result.id value)) ∧
                         (is_save e = true → e = RecordSave (Result.id value))) evs') as Hnone'.
    { eapply Forall_impl; [exact Hls|]. intros e [-> ->]. split; discriminate. }
    split; [intros Hint; destruct (has_data_not_empty _ _ Hhas Hint)|].
    split; [intros _; exact Hhas|].
    destruct Hcases as [(_ & -> & _) | (c & record' & _ & _ & _ & -> & _)].
    + split; [|split].
      * rewrite List.filter_app. cbn [List.filter is_load lookup_events app].
        rewrite Hl. simpl. lia.
      * rewrite List.filter_app. cbn [List.filter is_save lookup_events app].
        rewrite Hs. simpl. lia.
      * apply Forall_app. split; [exact Hnone|]. constructor; [|exact Hnone'].
        split; [reflexivity | discriminate].
    + split; [|split].
      * rewrite List.filter_app. cbn [List.filter is_load lookup_events app].
        rewrite List.filter_app, Hl. simpl. lia.
      * rewrite List.filter_app. cbn [List.filter is_save lookup_events app].
        rewrite List.filter_app, Hs. simpl. lia.
      * apply Forall_app. split; [exact Hnone|]. constructor.
        { split; [reflexivity | discriminate]. }
        apply Forall_app. split; [exact Hnone'|]. constructor; [|constructor].
        split; [discriminate | reflexivity].
Qed.

Lemma map_touches_record_only_with_data_witness :
  let h := Example.host (Example.answer 404 None None) in
  (map h (Example.candidate 7 "1234567") Example.world).1 = Return true ∧
  customers (map h (Example.candidate 7 "1234567") Example.world).2 = customers Example.world ∧
  Forall (λ e, record_event e = false)
    (emitted (map h (Example.candidate 7 "1234567")) Example.world).
Proof.
  cbv zeta.
  apply (map_touches_record_only_with_data
           (Example.host (Example.answer 404 None None))
           (Example.candidate 7 "1234567") Example.world).
  reflexivity.
Defined.

(** ** C9: an inactive record stays inactive *)

(** C9. Whenever [map] sets the inactive flag of a record it sets it to
    [true]; and a stored customer that is inactive before a call of [map] -
    the candidate's or any other - is stored and inactive after it, however
    the call ends. *)
Theorem map_never_reactivates h value w :
  Forall (λ e, ∀ id v, e = RecordSetValue id "isinactive" v → v = JBoolean true)
    (emitted (map h value) w) ∧
  ∀ id c,
    customers w !! id = Some c → Customer.isinactive c = true →
    ∃ c', customers (map h value w).2 !! id = Some c' ∧ Customer.isinactive c' = true.
Proof.
  destruct (map_summary h value w) as (evs & Htrace & Hcases). cbv zeta in Hcases.
  rewrite (emitted_app _ _ _ Htrace).
  assert (∀ evs', Forall (mutator_event (Result.id value)) evs' →
            Forall (λ e, ∀ id v, e = RecordSetValue id "isinactive" v → v = JBoolean true) evs')
    as Hflag.
  { intros evs' Hevs'. eapply Forall_impl; [exact Hevs'|].
    intros e He id v ->. simpl in He. apply He. reflexivity. }
  assert (Forall (λ e, ∀ id v, e = RecordSetValue id "isinactive" v → v = JBoolean true)
            (lookup_events h (Values.custentity_company_no (Result.values value)))) as Hquiet.
  { repeat constructor; discriminate. }
  destruct Hcases as [(_ & Hstore & Hevs & _) | (_ & evs' & Hevs' & Hcases)].
  - split.
    + destruct Hevs as [-> | ->]; [constructor | exact Hquiet].
    + intros id c Hc Hinactive. exists c. rewrite Hstore. auto.
  - destruct Hcases as [(Hstore & -> & _) | (c0 & record' & Hc0 & Hdesc & Hstore & -> & _)].
    + split.
      * apply Forall_app. split; [exact Hquiet|]. constructor; [discriminate | auto].
      * intros id c Hc Hinactive. exists c. rewrite Hstore. auto.
    + split.
      * apply Forall_app. split; [exact Hquiet|]. constructor; [discriminate|].
        apply Forall_app. split; [auto|]. repeat constructor; discriminate.
      * intros id c Hc Hinactive. rewrite Hstore.
        destruct (decide (id = Result.id value)) as [-> | Hne].
        -- rewrite lookup_insert_eq. eexists. split; [reflexivity|].
           apply Hdesc. simpl. congruence.
        -- rewrite lookup_insert_ne by congruence. eauto.
Qed.

Lemma map_never_reactivates_witness :
  let h := Example.host (Example.answer 200 (Some ["0620"]) (Some "active")) in
  ∃ c', customers (map h (Example.candidate 13 "07654321") Example.world).2 !! 13 = Some c' ∧
        Customer.isinactive c' = true.
Proof.
  cbv zeta.
  eapply (proj2 (map_never_reactivates
                   (Example.host (Example.answer 200 (Some ["0620"]) (Some "active")))
                   (Example.candidate 13 "07654321") Example.world)).
  - reflexivity.
  - reflexivity.
Defined.

(** ** C10: the code "0" *)

Lemma emitted_bind {A B} (P : Event → Prop) (Q : A → Prop) (R : B → Prop)
    (m : Script A) (f : A → Script B) w :
  behaves P Q m → (∀ a, Q a → behaves P R (f a)) →
  ∃ more, emitted (m ≫= f) w = (emitted m w ++ more)%list.
Proof.
  intros Hm Hf. destruct (Hm w) as (_ & (evs & Ht & _) & Hr).
  rewrite (emitted_app m w evs Ht).
  destruct (m w) as [[a|e] w'] eqn:Hmw; simpl in *.
  - destruct (Hf a (Hr a eq_refl) w') as (_ & (evs' & Ht' & _) & _).
    exists evs'. apply emitted_app. rewrite bind_run, Hmw, Ht', Ht, app_assoc. reflexivity.
  - exists []. apply emitted_app. rewrite bind_run, Hmw, app_nil_r. exact Ht.
Qed.

(** The first thing [updateClientSicCodes] does with the batch [""] is to
    set the empty text, which the store takes as clearing the field. *)
Lemma updateClientSicCodes_empty_code h record w :
  ∃ later,
    emitted (updateClientSicCodes h record [""]) w =
    RecordSetText (Loaded.id record) "custentity_sic_codes" (One "") :: later.
Proof.
  rewrite updateClientSicCodes_steps.
  destruct (emitted_bind (sic_event (Loaded.id record))
              (λ s : bool * Loaded.t, same_but_sic_codes record s.2)
              (same_but_sic_codes record)
              (attempts h [""] (false, record)) (commit h [""]) w) as [more ->].
  - apply attempts_behave. apply same_but_sic_codes_refl.
  - intros s Hs. apply commit_behaves. exact Hs.
  - exists more.
    rewrite (emitted_app _ w
               [RecordSetText (Loaded.id record) "custentity_sic_codes" (One "")]);
      [reflexivity|].
    unfold attempts. cbn [forEach]. rewrite bind_run. unfold try_catch.
    rewrite bind_run, setText_sic_codes_run. reflexivity.
Qed.

Lemma apply_updates_empty_code h record companyStatus w :
  ∃ later,
    emitted (apply_updates h record [""] companyStatus) w =
    RecordSetText (Loaded.id record) "custentity_sic_codes" (One "") :: later.
Proof.
  unfold apply_updates. cbn [List.length Nat.ltb Nat.leb].
  destruct (emitted_bind (mutator_event (Loaded.id record)) (descends record) (descends record)
              (updateClientSicCodes h record [""])
              (λ record0,
                 if JSString.truthy companyStatus
                 then updateClientCompanyStatus h record0 companyStatus
                      ≫= λ record1, updateClientAccount record1 companyStatus
                 else mret record0) w) as [more ->].
  - apply updateClientSicCodes_behaves.
  - intros r Hr. apply status_updates_behave. exact Hr.
  - destruct (updateClientSicCodes_empty_code h record w) as [later ->].
    eexists. reflexivity.
Qed.

(** C10. A 200 response that lists the one-character code "0" is read as
    the list holding the empty string: every input code is non-empty, the
    output code is not. [map] takes that list as data (it has length 1),
    loads the candidate's record and hands the list to
    [updateClientSicCodes], whose first call on the record is [setText] with
    the empty text. *)
Theorem zero_code_reaches_record_as_empty_text h value w c response profile :
  let companyNo := Values.custentity_company_no (Result.values value) in
  let id := Result.id value in
  let record := {| Loaded.id := id; Loaded.fields := c |} in
  JSString.truthy companyNo = true →
  lookup h companyNo = Return response →
  code response = 200 →
  body response = Some (JsonValue profile) →
  sic_codes profile = Some ["0"] →
  customers w !! id = Some c →
  getSicCodesFromCompaniesHouseResponse response = Return [""] ∧
  (∃ companyStatus,
     map h value w =
       (record ← updateClientSicCodes h record [""];
        record ← (if JSString.truthy companyStatus
                  then record ← updateClientCompanyStatus h record companyStatus;
                       updateClientAccount record companyStatus
                  else mret record);
        save record;;
        mret true)
       (after w (lookup_events h companyNo ++ [RecordLoad id]))) ∧
  ∃ later,
    emitted (map h value) w =
    (lookup_events h companyNo ++
     RecordLoad id :: RecordSetText id "custentity_sic_codes" (One "") :: later)%list.
Proof.
  cbv zeta. intros Htruthy Hlookup Hcode Hbody Hcodes Hc.
  assert (getSicCodesFromCompaniesHouseResponse response = Return [""]) as Hsic.
  { unfold getSicCodesFromCompaniesHouseResponse. rewrite Hbody, Hcode.
    cbn [JSON_parse mbind Outcome_bind Z.eqb Pos.eqb read_sic_codes]. rewrite Hcodes.
    reflexivity. }
  assert (∃ companyStatus,
            getCompanyStatusFromCompaniesHouseResponse response = Return companyStatus)
    as [companyStatus Hstatus].
  { unfold getCompanyStatusFromCompaniesHouseResponse. rewrite Hbody, Hcode.
    cbn [JSON_parse mbind Outcome_bind Z.eqb Pos.eqb read_company_status].
    destruct (company_status profile) as [status|]; [|eauto].
    destruct (JSString.truthy status); eauto. }
  assert (map h value w =
          update_candidate h (Result.id value) [""] companyStatus
            (after w (lookup_events h (Values.custentity_company_no (Result.values value)))))
    as Hmap.
  { rewrite map_run. cbv zeta. rewrite Htruthy. cbn [negb].
    unfold interpreted. rewrite Hlookup. cbn [mbind Outcome_bind].
    rewrite Hsic. cbn [mbind Outcome_bind]. rewrite Hstatus. reflexivity. }
  split; [exact Hsic|]. split.
  - exists companyStatus. rewrite Hmap. unfold update_candidate, load.
    rewrite !bind_run. cbn [emit]. rewrite bind_run. cbn [stored customers after].
    rewrite Hc. cbn [mret Script_ret]. rewrite <- after_after. reflexivity.
  - destruct (update_candidate_cases h (Result.id value) [""] companyStatus
                (after w (lookup_events h
                   (Values.custentity_company_no (Result.values value)))))
      as [[Hnone _] | (c' & evs & Hc' & Hevs & _ & Hrun)].
    { cbn [after customers] in Hnone. congruence. }
    destruct (apply_updates_empty_code h {| Loaded.id := Result.id value; Loaded.fields := c' |}
                companyStatus
                (after (after w (lookup_events h
                   (Values.custentity_company_no (Result.values value))))
                   [RecordLoad (Result.id value)])) as [later Hlater].
    rewrite Hlater in Hevs. cbn [Loaded.id] in Hevs. subst evs.
    destruct Hrun as [[e Hrun] | (record' & _ & Hrun)].
    + exists later. apply emitted_app. rewrite Hmap, Hrun.
      cbn [snd trace after]. rewrite <- app_assoc. reflexivity.
    + exists (later ++ [RecordSave (Result.id value)])%list.
      apply emitted_app. rewrite Hmap, Hrun.
      cbn [snd trace after]. rewrite <- app_assoc. reflexivity.
Qed.

Lemma zero_code_reaches_record_as_empty_text_witness :
  let h := Example.host (Example.answer 200 (Some ["0"]) None) in
  ∃ later,
    emitted (map h (Example.candidate 7 "1234567")) Example.world =
    (lookup_events h "1234567" ++
     RecordLoad 7 :: RecordSetText 7 "custentity_sic_codes" (One "") :: later)%list.
Proof.
  cbv zeta.
  eapply (zero_code_reaches_record_as_empty_text
            (Example.host (Example.answer 200 (Some ["0"]) None))
            (Example.candidate 7 "1234567") Example.world
            (Example.customer "1234567" (JNumber PrimFloat.zero) false 10)
            {| code := 200;
               body := Some (JsonValue {| sic_codes := Some ["0"]; company_status := None |}) |}
            {| sic_codes := Some ["0"]; company_status := None |});
    reflexivity.
Defined.

(** ** C5: the selection *)

#[export] Instance before_total columns : Total (before columns).
Proof.
  intros a b. unfold before.
  destruct (sorted_column columns) as [[name []]|]; [lia | lia | auto].
Qed.

#[export] Instance before_trans columns : Transitive (before columns).
Proof.
  intros a b c. unfold before.
  destruct (sorted_column columns) as [[name []]|]; [lia | lia | auto].
Qed.

Lemma StronglySorted_take {A} (R : relation A) n l :
  StronglySorted R l → StronglySorted R (take n l).
Proof.
  intros Hl. revert n. induction Hl as [|x l Hl IH Hx]; intros [|n]; simpl; try constructor.
  - apply IH.
  - apply Forall_take. exact Hx.
Qed.

Lemma StronglySorted_drop {A} (R : relation A) n l :
  StronglySorted R l → StronglySorted R (drop n l).
Proof.
  intros Hl. revert n. induction Hl as [|x l Hl IH Hx]; intros [|n]; simpl.
  - constructor.
  - constructor.
  - constructor; assumption.
  - apply IH.
Qed.

Lemma StronglySorted_map {A B} (R : relation B) (f : A → B) l :
  StronglySorted (λ a b, R (f a) (f b)) l → StronglySorted R (f <$> l).
Proof.
  induction 1 as [|x l Hl IH Hx]; simpl; constructor; [exact IH|].
  apply Forall_fmap. exact Hx.
Qed.

Lemma getRange_sorted {A} (R : relation A) (l : list A) start end_ :
  StronglySorted R l → StronglySorted R (getRange l start end_).
Proof. intros Hl. apply StronglySorted_take, StronglySorted_drop, Hl. Qed.

Lemma getRange_length {A} (l : list A) start end_ :
  (List.length (getRange l start end_) ≤ end_ - start)%nat.
Proof. unfold getRange. rewrite length_take. lia. Qed.

Lemma getRange_subseteq {A} (l : list A) start end_ : getRange l start end_ ⊆ l.
Proof.
  unfold getRange. intros x Hx.
  eapply subseteq_drop, subseteq_take, Hx.
Qed.

(** What the search of [getInputData] keeps. *)
Lemma customer_search_row filters columns db r :
  r ∈ customer_search filters columns db →
  ∃ c, db !! Result.id r = Some c ∧ matches filters c = true ∧ r = to_result (Result.id r, c).
Proof.
  unfold customer_search. intros Hr.
  apply list_elem_of_fmap in Hr as ([id c] & -> & Hrow).
  rewrite merge_sort_Permutation in Hrow.
  apply list_elem_of_In, List.filter_In in Hrow as [Hin Hmatch].
  apply list_elem_of_In, elem_of_map_to_list in Hin.
  exists c. auto.
Qed.

(** C5. [getInputData] returns, whatever the stored customers, a list of at
    most 600 results, ordered from the latest modification date to the
    earliest; every result is a stored customer that is not inactive and has
    a company number that is not empty. The platform is left as it was but
    for the one search being run. *)
Theorem getInputData_bounded_ordered_filtered w :
  ∃ results,
    getInputData w = (Return results, after w [SearchRun "customer"]) ∧
    (List.length results ≤ 600)%nat ∧
    StronglySorted
      (λ r1 r2, Values.lastmodifieddate (Result.values r2)
                ≤ Values.lastmodifieddate (Result.values r1)) results ∧
    Forall (λ r, ∃ c,
              customers w !! Result.id r = Some c ∧
              Customer.isinactive c = false ∧
              Customer.custentity_company_no c ≠ "" ∧
              r = to_result (Result.id r, c)) results.
Proof.
  unfold getInputData. cbv zeta. eexists. split; [reflexivity|].
  cbn [after customers]. split; [|split].
  - apply (getRange_length _ 0 600).
  - apply getRange_sorted. unfold customer_search.
    apply StronglySorted_map.
    match goal with |- StronglySorted _ (merge_sort ?R ?l) =>
      pose proof (StronglySorted_merge_sort R l) as Hsorted
    end.
    exact Hsorted.
  - apply Forall_forall. intros r Hr.
    apply getRange_subseteq, customer_search_row in Hr as (c & Hc & Hmatch & Hr).
    exists c. split; [exact Hc|].
    cbn [matches field_text String.eqb Ascii.eqb Bool.eqb] in Hmatch.
    apply andb_true_iff in Hmatch as [Hno Hactive].
    split; [|split; [|exact Hr]].
    + destruct (Customer.isinactive c); [discriminate Hactive | reflexivity].
    + apply negb_true_iff, String.eqb_neq in Hno. exact Hno.
Qed.

(** ** Further properties of [updateClientSicCodes] *)

Lemma left_selected_cons h sicCode sicCodes current :
  left_selected h (sicCode :: sicCodes) current =
  left_selected h sicCodes (attempt_result h sicCode).
Proof. unfold left_selected. rewrite last_cons. destruct (last sicCodes); reflexivity. Qed.

Lemma attempts_run h id sicCodes :
  ∀ (errorFound : bool) record w,
    Loaded.id record = id →
    attempts h sicCodes (errorFound, record) w =
    (Return (errorFound || existsb (refused h) sicCodes,
             Loaded.change
               (Customer.with_sic_codes
                  (left_selected h sicCodes
                     (Customer.custentity_sic_codes (Loaded.fields record)))) record),
     after w (sicCodes ≫= attempt_events h id)).
Proof.
  unfold attempts.
  induction sicCodes as [|sicCode sicCodes IH]; intros errorFound record w Hid.
  - cbn. rewrite orb_false_r, after_nil. destruct record as [? []]. reflexivity.
  - cbn [forEach]. rewrite bind_run. unfold try_catch at 1.
    rewrite bind_run, setText_sic_codes_run. cbv zeta.
    cbn [existsb mbind list_bind]. rewrite left_selected_cons.
    assert (refused h sicCode =
            match multiselect (sic_option h) (One sicCode) with
            | Some _ => false
            | None => true
            end) as Hrefused by reflexivity.
    unfold attempt_events at 1, attempt_result. rewrite !Hrefused. clear Hrefused.
    destruct (multiselect (sic_option h) (One sicCode)) as [v|] eqn:Hv.
    + cbn [mret Script_ret]. rewrite IH by exact Hid.
      rewrite Hid. unfold after. cbn [customers trace]. rewrite <- app_assoc.
      reflexivity.
    + rewrite bind_run, setText_sic_codes_run. cbn [multiselect mret Script_ret]. cbv zeta.
      rewrite IH by exact Hid.
      rewrite Hid. unfold after. cbn [customers trace]. rewrite <- !app_assoc.
      rewrite orb_true_r. reflexivity.
Qed.

(** X2. After a rejection. When the store refuses at least one code of the
    batch, the call still returns. It makes the single attempts and no other
    call: the batch is not committed and the resolver is not asked. The
    classification field is left as the last attempt left it - empty when
    the last code of the batch was refused, and holding that last code when
    it was accepted. *)
Theorem updateClientSicCodes_after_rejection h record sicCodes w :
  existsb (refused h) sicCodes = true →
  updateClientSicCodes h record sicCodes w =
    (Return (Loaded.change
               (Customer.with_sic_codes
                  (left_selected h sicCodes
                     (Customer.custentity_sic_codes (Loaded.fields record)))) record),
     after w (sicCodes ≫= attempt_events h (Loaded.id record))) ∧
  (∀ batch sicCode, sicCodes = (batch ++ [sicCode])%list →
     left_selected h sicCodes (Customer.custentity_sic_codes (Loaded.fields record)) =
     if refused h sicCode then []
     else if String.eqb sicCode "" then [] else [sicCode]).
Proof.
  intros Hrefused. split.
  - rewrite updateClientSicCodes_steps, bind_run, (attempts_run h (Loaded.id record)) by reflexivity.
    rewrite Hrefused. reflexivity.
  - intros batch sicCode ->. unfold left_selected. rewrite last_snoc.
    unfold attempt_result, refused, multiselect.
    destruct sicCode as [|c rest]; [reflexivity|].
    destruct (sic_option h (String c rest)); reflexivity.
Qed.

Lemma updateClientSicCodes_after_rejection_witness :
  let h := Example.host (Example.answer 200 None None) in
  ∃ w',
    updateClientSicCodes h Example.record ["620"; "9999"; "4791"] Example.world =
    (Return (Loaded.change (Customer.with_sic_codes ["4791"]) Example.record), w').
Proof.
  cbv zeta. eexists.
  apply (updateClientSicCodes_after_rejection
           (Example.host (Example.answer 200 None None)) Example.record
           ["620"; "9999"; "4791"] Example.world).
  reflexivity.
Defined.

(** X1. The description field. Whatever the batch and whatever the store and the
    description search answer, [updateClientSicCodes] makes no [setValue]
    call, and a record it hands back has the description it came with:
    [getSicDescriptions] returns the object [data], which has no [length],
    so the guard [sicDescriptions.length > 0] is never true. *)
Theorem updateClientSicCodes_never_writes_description h record sicCodes w :
  Forall (λ e, ∀ id fieldId value, e ≠ RecordSetValue id fieldId value)
    (emitted (updateClientSicCodes h record sicCodes) w) ∧
  ∀ record',
    (updateClientSicCodes h record sicCodes w).1 = Return record' →
    Customer.custentity_sic_description (Loaded.fields record') =
    Customer.custentity_sic_description (Loaded.fields record).
Proof.
  destruct (updateClientSicCodes_writes_codes_only h record sicCodes w)
    as (_ & (evs & Htrace & Hevs) & Hret).
  rewrite (emitted_app _ _ _ Htrace). split.
  - eapply Forall_impl; [exact Hevs|].
    intros e He id fieldId value ->. exact He.
  - intros record' Hrecord'. destruct (Hret record' Hrecord') as [v ->]. reflexivity.
Qed.

(** ** More on the company number and the request *)

Lemma searchableCompanyId_seven raw :
  seven_digits raw → searchableCompanyId raw = String "0" raw.
Proof.
  intros Hs. unfold searchableCompanyId.
  rewrite (proj2 (seven_digits_test raw) Hs), (seven_digits_not_whitespace raw Hs).
  reflexivity.
Qed.

Lemma searchableCompanyId_whitespace raw :
  raw ≠ "" → all_whitespace raw → searchableCompanyId raw = "".
Proof.
  intros Hne Hw. unfold searchableCompanyId.
  rewrite (proj2 (whitespace_test raw) (conj Hne Hw)).
  apply remove_all, all_Forall, Hw.
Qed.

Lemma searchableCompanyId_other raw :
  ¬ seven_digits raw → ¬ (raw ≠ "" ∧ all_whitespace raw) → searchableCompanyId raw = raw.
Proof.
  intros Hs Hw. unfold searchableCompanyId.
  destruct (JSString.match_plus JSString.digit raw && (JSString.length raw =? 7)) eqn:Hseven.
  { apply seven_digits_test in Hseven. contradiction. }
  destruct (JSString.match_plus JSString.whitespace raw) eqn:Hspace; [|reflexivity].
  apply whitespace_test in Hspace. contradiction.
Qed.

Lemma seven_digits_dec raw : seven_digits raw ∨ ¬ seven_digits raw.
Proof.
  destruct (JSString.match_plus JSString.digit raw && (JSString.length raw =? 7)) eqn:Hseven.
  - left. apply seven_digits_test. exact Hseven.
  - right. intros H. apply seven_digits_test in H. congruence.
Qed.

Lemma whitespace_dec raw :
  (raw ≠ "" ∧ all_whitespace raw) ∨ ¬ (raw ≠ "" ∧ all_whitespace raw).
Proof.
  destruct (JSString.match_plus JSString.whitespace raw) eqn:Hspace.
  - left. apply whitespace_test. exact Hspace.
  - right. intros H. apply whitespace_test in H. congruence.
Qed.

(** X3. Normalising twice is normalising once, and the normalised number is
    never a seven-digit number: the padding is applied at most once, so an
    eight-digit result is not padded to nine. A number of digits only that
    is not seven long - six digits, eight digits - is not padded at all. *)
Theorem searchableCompanyId_idempotent raw :
  searchableCompanyId (searchableCompanyId raw) = searchableCompanyId raw ∧
  ¬ seven_digits (searchableCompanyId raw) ∧
  (Forall (λ c, JSString.digit c = true) (chars raw) →
   String.length raw ≠ 7%nat → searchableCompanyId raw = raw).
Proof.
  assert (¬ seven_digits "") as Hempty by (intros [H _]; discriminate H).
  assert (¬ seven_digits raw → ¬ (raw ≠ "" ∧ all_whitespace raw) →
          searchableCompanyId (searchableCompanyId raw) = searchableCompanyId raw ∧
          ¬ seven_digits (searchableCompanyId raw)) as Hother.
  { intros Hs Hw. rewrite !(searchableCompanyId_other raw Hs Hw). auto. }
  split; [|split].
  - destruct (seven_digits_dec raw) as [Hs | Hs].
    + rewrite (searchableCompanyId_seven raw Hs). apply searchableCompanyId_other.
      * intros [Hl _]. destruct Hs as [Hl' _]. simpl in Hl. lia.
      * intros [_ Hw]. destruct Hs as [_ Hd]. inversion Hw as [|c l Hc _]. discriminate Hc.
    + destruct (whitespace_dec raw) as [[Hne Hw] | Hw]; [|apply Hother; assumption].
      rewrite (searchableCompanyId_whitespace raw Hne Hw). reflexivity.
  - destruct (seven_digits_dec raw) as [Hs | Hs].
    + rewrite (searchableCompanyId_seven raw Hs).
      intros [Hl _]. destruct Hs as [Hl' _]. simpl in Hl. lia.
    + destruct (whitespace_dec raw) as [[Hne Hw] | Hw]; [|apply Hother; assumption].
      rewrite (searchableCompanyId_whitespace raw Hne Hw). exact Hempty.
  - intros Hdigits Hlength. apply searchableCompanyId_other.
    + intros [Hl _]. rewrite length_chars in Hl. contradiction.
    + intros [Hne Hw]. destruct raw as [|c raw]; [congruence|].
      inversion Hdigits as [|? ? Hd _]. inversion Hw as [|? ? Hc _].
      rewrite (digit_not_whitespace c Hd) in Hc. discriminate Hc.
Qed.

Lemma searchableCompanyId_idempotent_witness :
  searchableCompanyId "123456" = "123456" ∧ searchableCompanyId "01234567" = "01234567".
Proof.
  split.
  - apply (searchableCompanyId_idempotent "123456"); [repeat constructor | discriminate].
  - apply (searchableCompanyId_idempotent "01234567"); [repeat constructor | discriminate].
Defined.

(** X4. The request. [getCompaniesHouseApiResponse] looks the API key up
    once and makes one GET, with [Basic base64(key:)] as its only header and
    nothing else touched; what it hands back is the transport's answer, a
    failure of the transport included. The address ends in the number with
    a "0" in front when the number has seven digits; it is the bare address
    of the company resource, with no number at all, when the number is
    made of whitespace only; it ends in the number as given otherwise. *)
Theorem request_address h raw w :
  ∃ url,
    getCompaniesHouseApiResponse h raw w =
      (https_get h url [("Authorization", "Basic " +:+ base64 h (api_key h +:+ ":"))],
       after w [ LookupFields "customrecord_lf_cfg" 1 "custrecord_lf_cfg_comp_hou_api_key";
                 HttpsGet url [("Authorization", "Basic " +:+ base64 h (api_key h +:+ ":"))] ]) ∧
    (seven_digits raw → url = company_url +:+ String "0" raw) ∧
    (raw ≠ "" → all_whitespace raw → url = company_url) ∧
    (¬ seven_digits raw → ¬ (raw ≠ "" ∧ all_whitespace raw) → url = company_url +:+ raw).
Proof.
  exists (company_url +:+ searchableCompanyId raw).
  split; [apply getCompaniesHouseApiResponse_run|].
  split; [|split].
  - intros Hs. rewrite (searchableCompanyId_seven raw Hs). reflexivity.
  - intros Hne Hw. rewrite (searchableCompanyId_whitespace raw Hne Hw). reflexivity.
  - intros Hs Hw. rewrite (searchableCompanyId_other raw Hs Hw). reflexivity.
Qed.

Lemma request_address_witness :
  let h := Example.host (Example.answer 404 None None) in
  ∃ url,
    emitted (getCompaniesHouseApiResponse h (String (ascii_of_nat 32) "")) Example.world =
      [ LookupFields "customrecord_lf_cfg" 1 "custrecord_lf_cfg_comp_hou_api_key";
        HttpsGet url [("Authorization", "Basic key:")] ] ∧
    url = company_url.
Proof.
  cbv zeta.
  destruct (request_address (Example.host (Example.answer 404 None None))
              (String (ascii_of_nat 32) "") Example.world)
    as (url & Hrun & _ & Hspace & _).
  exists url. split.
  - apply emitted_app. rewrite Hrun. reflexivity.
  - apply Hspace; [discriminate | repeat constructor].
Defined.

(** ** More on reading the response *)

(** X5. A 200 response. When the body is a JSON value other than [null],
    the status read is the [company_status] of the body, and the empty
    string when the body has none; the codes read are those of [sic_codes],
    each through [usableCode], and none when the body has no [sic_codes] -
    an empty list of codes and a missing one read the same. When the body
    is [null] both readers throw a TypeError. *)
Theorem response_200_readers response :
  code response = 200 →
  (∀ profile, body response = Some (JsonValue profile) →
     getCompanyStatusFromCompaniesHouseResponse response =
       Return (default "" (company_status profile)) ∧
     getSicCodesFromCompaniesHouseResponse response =
       Return match sic_codes profile with
              | Some codes => usableCode <$> codes
              | None => []
              end) ∧
  (body response = Some JsonNull →
     getCompanyStatusFromCompaniesHouseResponse response = Throw TypeError ∧
     getSicCodesFromCompaniesHouseResponse response = Throw TypeError).
Proof.
  intros Hcode.
  unfold getCompanyStatusFromCompaniesHouseResponse, getSicCodesFromCompaniesHouseResponse.
  rewrite Hcode. split.
  - intros profile ->.
    cbn [JSON_parse mbind Outcome_bind Z.eqb Pos.eqb read_company_status read_sic_codes].
    split.
    + destruct (company_status profile) as [status|]; [|reflexivity].
      destruct (JSString.truthy status) eqn:Hstatus; [reflexivity|].
      apply truthy_false in Hstatus as ->. reflexivity.
    + destruct (sic_codes profile) as [codes|]; [|reflexivity].
      cbn [mret Outcome_ret]. rewrite push_each. reflexivity.
  - intros ->. split; reflexivity.
Qed.

Lemma response_200_readers_witness :
  getCompanyStatusFromCompaniesHouseResponse
    {| code := 200;
       body := Some (JsonValue {| sic_codes := Some []; company_status := Some "dissolved" |}) |}
  = Return "dissolved" ∧
  getSicCodesFromCompaniesHouseResponse {| code := 200; body := Some JsonNull |}
  = Throw TypeError.
Proof.
  split.
  - destruct (response_200_readers
                {| code := 200;
                   body := Some (JsonValue {| sic_codes := Some [];
                                              company_status := Some "dissolved" |}) |}
                eq_refl) as [Hvalue _].
    apply (Hvalue {| sic_codes := Some []; company_status := Some "dissolved" |} eq_refl).
  - destruct (response_200_readers {| code := 200; body := Some JsonNull |} eq_refl)
      as [_ Hnull].
    apply (Hnull eq_refl).
Defined.

(** ** The summary stage *)

Lemma each_always {S} (entries : list (string * string)) (f : string → string → S → S) s :
  each entries (λ key value s, (f key value s, true)) s =
  fold_left (λ s entry, f entry.1 entry.2 s) entries s.
Proof.
  revert s. induction entries as [|[key value] entries IH]; intros s; simpl; auto.
Qed.

Lemma log_each (title : string → string) entries (log : list Log.entry) :
  fold_left (λ log (entry : string * string), log_error (title entry.1) entry.2 log) entries log =
  (log ++ ((λ entry, {| Log.title := title entry.1; Log.details := entry.2 |}) <$> entries))%list.
Proof.
  revert log. induction entries as [|entry entries IH]; intros log; simpl.
  - rewrite app_nil_r. reflexivity.
  - rewrite IH. unfold log_error. rewrite <- app_assoc. reflexivity.
Qed.

(** X6. The report. [summarize] logs the input error first, when there is
    one that is not the empty string, then every error of the map stage and
    then every error of the reduce stage, each once, in the order the
    iterators yield them, the key in the title and the error as the
    details. No error is left out and nothing else is logged. *)
Theorem summarize_logs_every_error summary :
  summarize summary =
    (match Summary.input_error summary with
     | Some error =>
         if String.eqb error "" then []
         else [{| Log.title := "Input Error"; Log.details := error |}]
     | None => []
     end ++
     ((λ entry, {| Log.title := "Map Error for key: " +:+ entry.1; Log.details := entry.2 |})
        <$> Summary.map_errors summary) ++
     ((λ entry, {| Log.title := "Reduce Error for key: " +:+ entry.1; Log.details := entry.2 |})
        <$> Summary.reduce_errors summary))%list ∧
  (List.length (Summary.map_errors summary) + List.length (Summary.reduce_errors summary)
   ≤ List.length (summarize summary))%nat.
Proof.
  assert (summarize summary =
    (match Summary.input_error summary with
     | Some error =>
         if String.eqb error "" then []
         else [{| Log.title := "Input Error"; Log.details := error |}]
     | None => []
     end ++
     ((λ entry, {| Log.title := "Map Error for key: " +:+ entry.1; Log.details := entry.2 |})
        <$> Summary.map_errors summary) ++
     ((λ entry, {| Log.title := "Reduce Error for key: " +:+ entry.1; Log.details := entry.2 |})
        <$> Summary.reduce_errors summary))%list) as Hlog.
  { unfold summarize. cbv zeta. rewrite !each_always.
    rewrite (log_each (λ key, "Map Error for key: " +:+ key)).
    rewrite (log_each (λ key, "Reduce Error for key: " +:+ key)).
    rewrite <- app_assoc. f_equal.
    destruct (Summary.input_error summary) as [error|]; [|reflexivity].
    unfold JSString.truthy. destruct (String.eqb error ""); reflexivity. }
  split; [exact Hlog|].
  rewrite Hlog, !length_app, !length_fmap. lia.
Qed.

(** ** More on [getSicDescriptions] and [updateClientSicCodes] *)

Lemma description_visits results :
  ∀ found w,
    forEach results (λ result data,
      let sicDescription := JString result in
      run (records ← JS.get data "records";
           records ← JS.push records sicDescription;
           data ← JS.set data "records" records;
           count ← JS.get data "recordsCount";
           count ← JS.add count (JNumber PrimFloat.one);
           JS.set data "recordsCount" count)) (description_object found) w =
    (Return (description_object (found ++ results)), w).
Proof.
  induction results as [|result results IH]; intros found w.
  - rewrite app_nil_r. reflexivity.
  - cbn [forEach]. rewrite bind_run.
    replace (found ++ result :: results)%list with ((found ++ [result]) ++ results)%list
      by (rewrite <- app_assoc; reflexivity).
    rewrite <- IH. clear IH.
    assert (description_object (found ++ [result]) =
            JObject [ ("recodsCount", JNumber PrimFloat.zero);
                      ("records", JArray ((JString <$> found) ++ [JString result]));
                      ("recordsCount", JNumber PrimFloat.nan) ]) as ->.
    { unfold description_object. rewrite fmap_app. destruct found; reflexivity. }
    destruct found as [|first found]; reflexivity.
Qed.

(** X7. What [getSicDescriptions] returns. It makes one keyword search, on
    the codes joined by " OR ", and returns an object - not an array -
    whose [records] holds the descriptions found, in the order found and at
    most 4000 of them. Its [recodsCount] is 0 whatever was found, and its
    [recordsCount], absent when nothing was found, is NaN otherwise: the
    counter is never a count. For an empty list of codes the keywords are
    the empty string. *)
Theorem getSicDescriptions_returns_object h sicCodes w :
  let found := take each_limit (sic_keyword_search h (JSString.join " OR " sicCodes)) in
  getSicDescriptions h sicCodes w =
    (Return (description_object found),
     after w [SearchKeywords "customrecord_sic_codes" "name" (JSString.join " OR " sicCodes)]) ∧
  JS.get (description_object found) "records" = Return (JArray (JString <$> found)) ∧
  JS.get (description_object found) "recodsCount" = Return (JNumber PrimFloat.zero) ∧
  JS.get (description_object found) "recordsCount" =
    Return (if decide (found = []) then JUndefined else JNumber PrimFloat.nan) ∧
  JS.get (description_object found) "length" = Return JUndefined ∧
  (List.length found ≤ 4000)%nat.
Proof.
  cbv zeta. split.
  - unfold getSicDescriptions. cbv zeta. rewrite bind_run. cbn [emit].
    apply (description_visits _ []).
  - split; [|split; [|split; [|split]]]; try reflexivity.
    + destruct (take each_limit _); reflexivity.
    + destruct (take each_limit _); reflexivity.
    + rewrite length_take. unfold each_limit. lia.
Qed.




(** ** More on [map] *)

Lemma setText_status_run h record text w :
  setText h record "custentity_company_status" text w =
  let w' := after w [RecordSetText (Loaded.id record) "custentity_company_status" text] in
  match select (status_option h) text with
  | Some v => (Return (Loaded.change (Customer.with_company_status v) record), w')
  | None => (Throw (PlatformError "INVALID_FLD_VALUE"), w')
  end.
Proof.
  unfold setText. rewrite bind_run. cbn.
  destruct (select (status_option h) text); reflexivity.
Qed.

Lemma updateClientAccount_run record companyStatus w :
  updateClientAccount record companyStatus w =
  if deactivation_test (Loaded.fields record) companyStatus
  then (Return (Loaded.change (Customer.with_isinactive true) record),
        after w [RecordSetValue (Loaded.id record) "isinactive" (JBoolean true)])
  else (Return record, w).
Proof.
  unfold updateClientAccount, deactivation_test. cbv zeta.
  cbn [getValue String.eqb Ascii.eqb Bool.eqb].
  destruct (negb (String.eqb companyStatus "active")); [|reflexivity].
  cbn [andb].
  destruct (JS.strict_equals_number (Customer.balance (Loaded.fields record)) PrimFloat.zero
            && JS.strict_equals_number (Customer.overduebalance (Loaded.fields record))
                 PrimFloat.zero
            && JS.strict_equals_number (Customer.unbilledorders (Loaded.fields record))
                 PrimFloat.zero); reflexivity.
Qed.

Lemma deactivation_test_due c companyStatus :
  deactivation_test c companyStatus = true ↔ deactivation_due c companyStatus.
Proof.
  unfold deactivation_test, deactivation_due.
  rewrite !andb_true_iff, negb_true_iff, String.eqb_neq, !strict_equals_zero. tauto.
Qed.

Lemma select_text offered status :
  status ≠ "" → select offered (One status) = if offered status then Some status else None.
Proof. destruct status; [congruence | reflexivity]. Qed.

(** The block of [map] in terms of its setters: load, the setters, and the
    save when they ran through. *)
Lemma update_candidate_run h id sicCodes companyStatus w c :
  customers w !! id = Some c →
  update_candidate h id sicCodes companyStatus w =
  match apply_updates h {| Loaded.id := id; Loaded.fields := c |} sicCodes companyStatus
          (after w [RecordLoad id]) with
  | (Return record, w') =>
      (Return true,
       {| customers := <[Loaded.id record := Loaded.fields record]> (customers w');
          trace := (trace w' ++ [RecordSave (Loaded.id record)])%list |})
  | (Throw e, w') => (Throw e, w')
  end.
Proof.
  intros Hc. unfold update_candidate, apply_updates, load.
  rewrite !bind_run. cbn [emit]. rewrite bind_run. cbn [stored customers]. rewrite Hc.
  cbn [mret Script_ret]. fold (after w [RecordLoad id]).
  rewrite !bind_run.
  destruct ((if (0 <? List.length sicCodes)%nat
             then updateClientSicCodes h {| Loaded.id := id; Loaded.fields := c |} sicCodes
             else mret {| Loaded.id := id; Loaded.fields := c |}) (after w [RecordLoad id]))
    as [[r1|e1] w1]; [|reflexivity].
  rewrite !bind_run.
  destruct ((if JSString.truthy companyStatus
             then updateClientCompanyStatus h r1 companyStatus
                  ≫= λ record, updateClientAccount record companyStatus
             else mret r1) w1) as [[r2|e2] w2]; [|reflexivity].
  unfold save. rewrite !bind_run. cbn [emit]. rewrite bind_run. reflexivity.
Qed.

(** The setters on codes and a status the store accepts. *)
Lemma apply_updates_accepted h record sicCodes companyStatus w :
  forallb (sic_option h) sicCodes = true →
  (companyStatus = "" ∨ status_option h companyStatus = true) →
  ∃ w',
    apply_updates h record sicCodes companyStatus w =
      (Return {| Loaded.id := Loaded.id record;
                 Loaded.fields := updated (Loaded.fields record) sicCodes companyStatus |}, w') ∧
    customers w' = customers w.
Proof.
  intros Hall Hstatus. unfold apply_updates, updated. cbv zeta. rewrite bind_run.
  set (r1 := if (0 <? List.length sicCodes)%nat
             then Loaded.change (Customer.with_sic_codes sicCodes) record else record).
  assert (∃ w1, (if (0 <? List.length sicCodes)%nat
                 then updateClientSicCodes h record sicCodes else mret record) w = (Return r1, w1) ∧
                customers w1 = customers w) as (w1 & -> & Hw1).
  { subst r1. destruct (0 <? List.length sicCodes)%nat.
    - rewrite (updateClientSicCodes_accepted h record sicCodes w Hall). eexists. split; reflexivity.
    - eexists. split; reflexivity. }
  assert (Loaded.id r1 = Loaded.id record ∧
          Loaded.fields r1 =
            if (0 <? List.length sicCodes)%nat
            then Customer.with_sic_codes sicCodes (Loaded.fields record)
            else Loaded.fields record) as [Hid Hfields].
  { subst r1. destruct (0 <? List.length sicCodes)%nat; split; reflexivity. }
  rewrite <- Hfields, <- Hid. clearbody r1. clear Hid Hfields.
  destruct (JSString.truthy companyStatus) eqn:Htruthy.
  - assert (companyStatus ≠ "") as Hne.
    { intros ->. discriminate Htruthy. }
    destruct Hstatus as [-> | Hstatus]; [congruence|].
    rewrite bind_run. unfold updateClientCompanyStatus.
    rewrite setText_status_run, (select_text _ _ Hne), Hstatus. cbv beta iota zeta.
    rewrite updateClientAccount_run. cbn [Loaded.fields Loaded.change].
    destruct (deactivation_test _ companyStatus); eexists; split; try reflexivity; exact Hw1.
  - exists w1. split; [|exact Hw1]. destruct r1. reflexivity.
Qed.

(** The setters on a status the store refuses. *)
Lemma apply_updates_refused h record sicCodes companyStatus w :
  companyStatus ≠ "" → status_option h companyStatus = false →
  ∃ e, (apply_updates h record sicCodes companyStatus w).1 = Throw e.
Proof.
  intros Hne Hstatus. unfold apply_updates. rewrite bind_run.
  destruct ((if (0 <? List.length sicCodes)%nat
             then updateClientSicCodes h record sicCodes else mret record) w)
    as [[r1|e1] w1]; [|eexists; reflexivity].
  assert (JSString.truthy companyStatus = true) as ->.
  { destruct (JSString.truthy companyStatus) eqn:Ht; [reflexivity|].
    apply truthy_false in Ht. contradiction. }
  rewrite bind_run. unfold updateClientCompanyStatus.
  rewrite setText_status_run, (select_text _ _ Hne), Hstatus. eexists. reflexivity.
Qed.

Lemma truthy_true s : JSString.truthy s = true ↔ s ≠ "".
Proof.
  unfold JSString.truthy. rewrite negb_true_iff. apply String.eqb_neq.
Qed.

Lemma mutator_events_no_request id evs :
  Forall (mutator_event id) evs → List.filter is_request evs = [].
Proof.
  induction 1 as [|e evs He _ IH]; [reflexivity|].
  destruct e; simpl in He; try contradiction; simpl; exact IH.
Qed.

(** X9. One request per candidate. A call of [map] on a candidate whose
    company number is the empty string makes no platform call at all and
    returns [true] with the world as it was; on any other candidate - a
    number made of blanks included - it looks the API key up and makes
    exactly one request to the registry, whatever happens afterwards. *)
Theorem map_requests_once h value w :
  let companyNo := Values.custentity_company_no (Result.values value) in
  (companyNo = "" → map h value w = (Return true, w)) ∧
  (companyNo ≠ "" →
     List.length (List.filter is_request (emitted (map h value) w)) = 1%nat ∧
     ∃ later, emitted (map h value) w = (lookup_events h companyNo ++ later)%list).
Proof.
  cbv zeta. pose proof (map_run h value w) as Hmap. cbv zeta in Hmap.
  set (companyNo := Values.custentity_company_no (Result.values value)) in *.
  split.
  - intros Hempty. rewrite Hmap, Hempty. reflexivity.
  - intros Hne. apply truthy_true in Hne as Htruthy. rewrite Htruthy in Hmap. cbn [negb] in Hmap.
    assert (∃ later,
              trace (map h value w).2 = (trace w ++ lookup_events h companyNo ++ later)%list ∧
              List.filter is_request later = []) as (later & Htrace & Hlater).
    { rewrite Hmap.
      destruct (interpreted h companyNo) as [[sicCodes companyStatus]|e].
      2:{ exists []. rewrite app_nil_r. split; reflexivity. }
      destruct (_ || _).
      2:{ exists []. rewrite app_nil_r. split; reflexivity. }
      destruct (update_candidate_cases h (Result.id value) sicCodes companyStatus
                  (after w (lookup_events h companyNo)))
        as [[_ ->] | (c & evs & _ & _ & Hevs & [[e ->] | (record' & _ & ->)])].
      - exists [RecordLoad (Result.id value)]. cbn [snd after trace].
        rewrite <- app_assoc. split; reflexivity.
      - exists (RecordLoad (Result.id value) :: evs). cbn [snd after trace].
        rewrite <- app_assoc. split; [reflexivity|].
        simpl. apply (mutator_events_no_request _ _ Hevs).
      - exists (RecordLoad (Result.id value) :: evs ++ [RecordSave (Result.id value)])%list.
        cbn [snd after trace]. rewrite <- app_assoc. split; [reflexivity|].
        simpl. rewrite List.filter_app, (mutator_events_no_request _ _ Hevs). reflexivity. }
    rewrite (emitted_app _ w _ Htrace). split; [|eexists; reflexivity].
    rewrite List.filter_app, Hlater. reflexivity.
Qed.

Lemma map_requests_once_witness :
  let h := Example.host (Example.answer 200 (Some ["0620"]) (Some "active")) in
  map h (Example.candidate 11 "") Example.world = (Return true, Example.world) ∧
  List.length (List.filter is_request
     (emitted (map h (Example.candidate 7 (String (ascii_of_nat 32) ""))) Example.world))
  = 1%nat.
Proof.
  cbv zeta. split.
  - apply (map_requests_once (Example.host (Example.answer 200 (Some ["0620"]) (Some "active")))
             (Example.candidate 11 "") Example.world). reflexivity.
  - apply (map_requests_once (Example.host (Example.answer 200 (Some ["0620"]) (Some "active")))
             (Example.candidate 7 (String (ascii_of_nat 32) "")) Example.world). discriminate.
Defined.

(** X10. How a call of [map] can end. It returns [true] or throws; it never
    returns [false]. When it throws, the stored customers are exactly what
    they were, setters that ran before the throw notwithstanding. Whatever
    the end, the customers other than the candidate are stored as before.
    A save is the last call of the run: when there is one, the call
    returns [true] and nothing follows the save. *)
Theorem map_all_or_nothing h value w :
  ((map h value w).1 = Return true ∨ ∃ e, (map h value w).1 = Throw e) ∧
  (∀ e, (map h value w).1 = Throw e → customers (map h value w).2 = customers w) ∧
  (∀ id, id ≠ Result.id value → customers (map h value w).2 !! id = customers w !! id) ∧
  (RecordSave (Result.id value) ∈ emitted (map h value) w →
     (map h value w).1 = Return true ∧
     ∃ before, emitted (map h value) w = (before ++ [RecordSave (Result.id value)])%list).
Proof.
  destruct (map_summary h value w) as (evs & Htrace & Hcases). cbv zeta in Hcases.
  rewrite (emitted_app _ _ _ Htrace).
  assert (RecordSave (Result.id value)
            ∉ lookup_events h (Values.custentity_company_no (Result.values value))) as Hquiet.
  { intros H. apply list_elem_of_In in H. simpl in H. intuition discriminate. }
  destruct Hcases as [(_ & Hstore & Hevs & Hout) | (_ & evs' & Hevs' & Hcases)].
  - split; [|split; [|split]].
    + destruct Hout as [Hout | (e & _ & Hout)]; eauto.
    + intros _ _. exact Hstore.
    + intros id _. rewrite Hstore. reflexivity.
    + intros Hsave. destruct Hevs as [-> | ->]; [inversion Hsave | contradiction].
  - assert (RecordSave (Result.id value) ∉ evs') as Hnone.
    { intros H. rewrite Forall_forall in Hevs'. apply (Hevs' _ H). }
    destruct Hcases as [(Hstore & -> & e & Hout) | (c & record' & _ & _ & Hstore & -> & Hout)].
    + split; [|split; [|split]].
      * eauto.
      * intros _ _. exact Hstore.
      * intros id _. rewrite Hstore. reflexivity.
      * intros Hsave. apply elem_of_app in Hsave as [Hsave | Hsave]; [contradiction|].
        apply elem_of_cons in Hsave as [Hsave | Hsave]; [discriminate | contradiction].
    + split; [|split; [|split]].
      * auto.
      * intros e He. congruence.
      * intros id Hid. rewrite Hstore. apply lookup_insert_ne. congruence.
      * intros _. split; [exact Hout|].
        exists (lookup_events h (Values.custentity_company_no (Result.values value)) ++
                RecordLoad (Result.id value) :: evs')%list.
        rewrite <- app_assoc. reflexivity.
Qed.

(** X11. Failures of the lookup. For a candidate with a company number, a
    failure of the transport reaches the caller of [map] as it is; a body
    that is not JSON - whatever the status code - reaches it as a
    SyntaxError, and a 200 response with the body [null] as a TypeError.
    In each case the request was made and no record was loaded. *)
Theorem map_lookup_failures h value w :
  let companyNo := Values.custentity_company_no (Result.values value) in
  companyNo ≠ "" →
  (∀ e, lookup h companyNo = Throw e →
     map h value w = (Throw e, after w (lookup_events h companyNo))) ∧
  (∀ response, lookup h companyNo = Return response → body response = None →
     map h value w = (Throw SyntaxError, after w (lookup_events h companyNo))) ∧
  (∀ response, lookup h companyNo = Return response →
     code response = 200 → body response = Some JsonNull →
     map h value w = (Throw TypeError, after w (lookup_events h companyNo))).
Proof.
  cbv zeta. intros Hne. apply truthy_true in Hne.
  rewrite map_run. cbv zeta. rewrite Hne. cbn [negb]. unfold interpreted.
  split; [|split].
  - intros e ->. reflexivity.
  - intros response -> Hbody. cbn [mbind Outcome_bind].
    unfold getSicCodesFromCompaniesHouseResponse. rewrite Hbody. reflexivity.
  - intros response -> Hcode Hbody. cbn [mbind Outcome_bind].
    unfold getSicCodesFromCompaniesHouseResponse. rewrite Hbody, Hcode. reflexivity.
Qed.

Lemma map_lookup_failures_witness :
  let h := Example.host (Return {| code := 429; body := None |}) in
  map h (Example.candidate 7 "1234567") Example.world =
  (Throw SyntaxError, after Example.world (lookup_events h "1234567")).
Proof.
  cbv zeta.
  destruct (map_lookup_failures (Example.host (Return {| code := 429; body := None |}))
              (Example.candidate 7 "1234567") Example.world) as (_ & Hbody & _).
  - discriminate.
  - apply (Hbody {| code := 429; body := None |}); reflexivity.
Defined.

(** X12. What [map] saves. For a candidate with a company number whose
    lookup gave codes, a status or both, all of which the store accepts,
    and whose record exists, [map] returns [true] and the stored customer
    becomes the old one with: the codes as read, when there are any (the
    stored codes are kept when there are none); the status as read, when
    there is one; the inactive flag set when there is a status and the
    deactivation test passes on the customer's balances, and as before
    otherwise. The description, the company number and the balances are
    as before. *)
Theorem map_saves_update h value w c sicCodes companyStatus :
  let companyNo := Values.custentity_company_no (Result.values value) in
  let id := Result.id value in
  companyNo ≠ "" →
  interpreted h companyNo = Return (sicCodes, companyStatus) →
  sicCodes ≠ [] ∨ companyStatus ≠ "" →
  forallb (sic_option h) sicCodes = true →
  companyStatus = "" ∨ status_option h companyStatus = true →
  customers w !! id = Some c →
  let c' := updated c sicCodes companyStatus in
  (map h value w).1 = Return true ∧
  customers (map h value w).2 = <[id := c']> (customers w) ∧
  Customer.custentity_sic_codes c' =
    (if decide (sicCodes = []) then Customer.custentity_sic_codes c else sicCodes) ∧
  Customer.custentity_company_status c' =
    (if decide (companyStatus = "") then Customer.custentity_company_status c
     else companyStatus) ∧
  (companyStatus ≠ "" ∧ deactivation_due c companyStatus → Customer.isinactive c' = true) ∧
  (¬ (companyStatus ≠ "" ∧ deactivation_due c companyStatus) →
     Customer.isinactive c' = Customer.isinactive c) ∧
  Customer.custentity_sic_description c' = Customer.custentity_sic_description c ∧
  Customer.custentity_company_no c' = Customer.custentity_company_no c ∧
  Customer.balance c' = Customer.balance c.
Proof.
  cbv zeta. intros Hne Hint Hdata Hall Hstatus Hc.
  assert (map h value w =
          update_candidate h (Result.id value) sicCodes companyStatus
            (after w (lookup_events h (Values.custentity_company_no (Result.values value)))))
    as Hmap.
  { rewrite map_run. cbv zeta. apply truthy_true in Hne. rewrite Hne, Hint. cbn [negb].
    destruct (_ || _) eqn:Hnone; [reflexivity|].
    apply no_data_test in Hnone as [-> ->]. destruct Hdata; congruence. }
  rewrite Hmap, (update_candidate_run _ _ _ _ _ c) by exact Hc.
  destruct (apply_updates_accepted h
              {| Loaded.id := Result.id value; Loaded.fields := c |} sicCodes companyStatus
              (after (after w (lookup_events h
                 (Values.custentity_company_no (Result.values value))))
                 [RecordLoad (Result.id value)]) Hall Hstatus) as (w' & -> & Hw').
  cbn [fst snd customers Loaded.id Loaded.fields]. rewrite Hw'.
  split; [reflexivity|]. split; [reflexivity|].
  unfold updated. cbv zeta.
  assert (deactivation_test
            (Customer.with_company_status companyStatus
               (if (0 <? List.length sicCodes)%nat
                then Customer.with_sic_codes sicCodes c else c)) companyStatus
          = deactivation_test c companyStatus) as Htest.
  { destruct (0 <? List.length sicCodes)%nat; reflexivity. }
  rewrite Htest. pose proof (deactivation_test_due c companyStatus) as Hdue.
  assert ((0 <? List.length sicCodes)%nat = if decide (sicCodes = []) then false else true)
    as Hcodes.
  { destruct sicCodes; reflexivity. }
  assert (JSString.truthy companyStatus = if decide (companyStatus = "") then false else true)
    as Htruthy.
  { destruct (decide (companyStatus = "")) as [-> | Hs]; [reflexivity|].
    apply truthy_true. exact Hs. }
  rewrite Hcodes, Htruthy.
  destruct (decide (sicCodes = [])), (decide (companyStatus = "")),
    (deactivation_test c companyStatus);
    cbn; repeat split; try reflexivity; try tauto;
    intros [_ Hd]; apply Hdue in Hd; discriminate Hd.
Qed.

Lemma map_saves_update_witness :
  let h := Example.host (Example.answer 200 (Some ["0620"; "4791"]) (Some "dissolved")) in
  ∃ c',
    customers (map h (Example.candidate 7 "1234567") Example.world).2
    = <[7 := c']> (customers Example.world) ∧
    Customer.custentity_sic_codes c' = ["620"; "4791"] ∧
    Customer.custentity_company_status c' = "dissolved" ∧
    Customer.isinactive c' = true.
Proof.
  cbv zeta.
  destruct (map_saves_update
              (Example.host (Example.answer 200 (Some ["0620"; "4791"]) (Some "dissolved")))
              (Example.candidate 7 "1234567") Example.world
              (Example.customer "1234567" (JNumber PrimFloat.zero) false 10)
              ["620"; "4791"] "dissolved")
    as (_ & Hstore & Hcodes & Hstatus & Hinactive & _); try reflexivity.
  - discriminate.
  - left. discriminate.
  - right. reflexivity.
  - eexists. split; [exact Hstore|]. split; [exact Hcodes|]. split; [exact Hstatus|].
    apply Hinactive. split; [discriminate|].
    split; [discriminate|]. repeat split; left; reflexivity.
Defined.

(** X13. A status the store refuses. When the status read for a candidate
    is a text the status field does not take, [map] throws and saves
    nothing: the stored customers are what they were - the SIC codes set
    on the record object before the status, accepted though they were, are
    lost with it. *)
Theorem map_refused_status_saves_nothing h value w sicCodes companyStatus :
  let companyNo := Values.custentity_company_no (Result.values value) in
  companyNo ≠ "" →
  interpreted h companyNo = Return (sicCodes, companyStatus) →
  companyStatus ≠ "" →
  status_option h companyStatus = false →
  (∃ e, (map h value w).1 = Throw e) ∧
  customers (map h value w).2 = customers w ∧
  List.filter is_save (emitted (map h value) w) = [].
Proof.
  cbv zeta. intros Hne Hint Hstatus Hrefused.
  assert (∃ e, (map h value w).1 = Throw e) as [e He].
  { rewrite map_run. cbv zeta. apply truthy_true in Hne. rewrite Hne, Hint. cbn [negb].
    apply truthy_true in Hstatus as Htruthy. rewrite Htruthy, orb_true_r.
    destruct (customers w !! Result.id value) as [c|] eqn:Hc.
    - rewrite (update_candidate_run _ _ _ _ _ c) by exact Hc.
      match goal with |- context [apply_updates h ?r sicCodes companyStatus ?w'] =>
        destruct (apply_updates_refused h r sicCodes companyStatus w' Hstatus Hrefused)
          as [e He];
        destruct (apply_updates h r sicCodes companyStatus w') as [[r'|e'] w'']
      end; [discriminate He | eexists; reflexivity].
    - destruct (update_candidate_cases h (Result.id value) sicCodes companyStatus
                  (after w (lookup_events h
                     (Values.custentity_company_no (Result.values value)))))
        as [[_ ->] | (c & _ & Hc' & _)]; [eexists; reflexivity|].
      cbn [after customers] in Hc'. congruence. }
  split; [exists e; exact He|].
  destruct (map_summary h value w) as (evs & Htrace & Hcases). cbv zeta in Hcases.
  rewrite (emitted_app _ _ _ Htrace).
  destruct Hcases as [(_ & Hstore & Hevs & _) | (_ & evs' & Hevs' & Hcases)].
  - split; [exact Hstore|]. destruct Hevs as [-> | ->]; reflexivity.
  - destruct Hcases as [(Hstore & -> & _) | (_ & _ & _ & _ & _ & _ & Hout)]; [|congruence].
    split; [exact Hstore|].
    destruct (mutator_events_no_load_save _ _ Hevs') as (_ & Hs & _).
    rewrite List.filter_app. cbn [List.filter is_save lookup_events app]. exact Hs.
Qed.

Lemma map_refused_status_saves_nothing_witness :
  let h :=
    {| api_key := "key"; base64 := λ text, text;
       https_get := λ _ _, Example.answer 200 (Some ["0620"]) (Some "liquidation");
       sic_option := λ text, bool_decide (text ∈ ["620"]);
       status_option := λ text, bool_decide (text ∈ ["active"; "dissolved"]);
       sic_keyword_search := λ _, [] |} in
  customers (map h (Example.candidate 7 "1234567") Example.world).2 = customers Example.world.
Proof.
  cbv zeta.
  eapply (map_refused_status_saves_nothing _ (Example.candidate 7 "1234567") Example.world
            ["620"] "liquidation"); [discriminate | reflexivity | discriminate | reflexivity].
Defined.

(** ** More on the selection *)

Lemma NoDup_fmap_filter {A B} (f : A → B) (p : A → bool) (l : list A) :
  NoDup (f <$> l) → NoDup (f <$> List.filter p l).
Proof.
  induction l as [|x l IH]; simpl; [auto|].
  intros [Hx Hl]%NoDup_cons. destruct (p x); [|auto].
  simpl. apply NoDup_cons. split; [|auto].
  intros Hin. apply Hx.
  apply list_elem_of_fmap in Hin as (y & -> & Hy).
  apply list_elem_of_fmap. exists y. split; [reflexivity|].
  apply list_elem_of_In. apply list_elem_of_In, List.filter_In in Hy as [Hy _]. exact Hy.
Qed.

Lemma eligible_matches c :
  matches (AND (Filter "custentity_company_no" ISNOTEMPTY "") (Filter "isinactive" IS "F")) c
  = true ↔ eligible c.
Proof.
  unfold eligible. cbn [matches field_text String.eqb Ascii.eqb Bool.eqb].
  rewrite andb_true_iff, negb_true_iff, String.eqb_neq.
  destruct (Customer.isinactive c); simpl; intuition discriminate.
Qed.

(** X14. No candidate twice. The results [getInputData] returns carry
    pairwise different record ids, so one run of the map stage makes at
    most 600 requests, on 600 different customers at most. *)
Theorem getInputData_distinct_ids w :
  ∃ results,
    (getInputData w).1 = Return results ∧
    NoDup (Result.id <$> results) ∧
    (List.length (Result.id <$> results) ≤ 600)%nat.
Proof.
  unfold getInputData. cbv zeta. eexists. split; [reflexivity|].
  cbn [stored customers emit]. split.
  - unfold getRange, customer_search. rewrite drop_0. cbn [Nat.sub].
    rewrite <- fmap_take, <- list_fmap_compose.
    refine (sublist_NoDup _ _ _ (fmap_sublist _ _ _ (sublist_take _ _))).
    change (Result.id ∘ to_result) with (@fst Z Customer.t).
    rewrite merge_sort_Permutation.
    apply NoDup_fmap_filter, NoDup_fst_map_to_list.
  - rewrite length_fmap. apply (getRange_length _ 0 600).
Qed.

(** X15. Who is left out. An eligible customer - stored, active, with a
    company number - is among the results of [getInputData] unless the
    results are a full 600, and then it was modified no later than every
    customer that is among them: the cap drops the customers modified
    longest ago, and drops nobody while there are 600 eligible customers
    or fewer. *)
Theorem getInputData_keeps_latest w id c :
  customers w !! id = Some c →
  eligible c →
  ∃ results,
    (getInputData w).1 = Return results ∧
    (to_result (id, c) ∈ results ∨
     (List.length results = 600%nat ∧
      Forall (λ r, Customer.lastmodifieddate c ≤ Values.lastmodifieddate (Result.values r))
        results)).
Proof.
  intros Hc Heligible. unfold getInputData. cbv zeta. eexists. split; [reflexivity|].
  cbn [stored customers emit]. unfold getRange, customer_search. rewrite drop_0.
  cbn [Nat.sub]. rewrite <- fmap_take.
  match goal with |- context [merge_sort ?R ?l] =>
    set (rows := l); set (sorted := merge_sort R l);
    pose proof (StronglySorted_merge_sort R l) as Hsorted;
    pose proof (merge_sort_Permutation R l) as Hperm
  end.
  fold sorted in Hsorted, Hperm.
  assert ((id, c) ∈ sorted) as Hrow.
  { rewrite Hperm. subst rows. apply list_elem_of_In, List.filter_In. split.
    - apply list_elem_of_In, elem_of_map_to_list. exact Hc.
    - apply eligible_matches. exact Heligible. }
  rewrite <- (take_drop 600 sorted) in Hrow, Hsorted.
  apply elem_of_app in Hrow as [Hrow | Hrow].
  - left. apply list_elem_of_fmap. exists (id, c). auto.
  - right. split.
    + rewrite length_fmap. apply length_take_le.
      destruct (decide (600 ≤ List.length sorted)%nat) as [|Hshort]; [assumption|].
      rewrite drop_ge in Hrow by lia. inversion Hrow.
    + apply Forall_fmap, Forall_forall. intros row Hin.
      exact (StronglySorted_app_1_elem_of _ _ _ _ _ Hsorted Hin Hrow).
Qed.

Lemma getInputData_keeps_latest_witness :
  ∃ results,
    (getInputData Example.world).1 = Return results ∧
    to_result (9, Example.customer "00000001" (JNumber PrimFloat.one) false 30) ∈ results.
Proof.
  destruct (getInputData_keeps_latest Example.world 9
              (Example.customer "00000001" (JNumber PrimFloat.one) false 30))
    as (results & Hrun & [Hin | [Hlength _]]).
  - reflexivity.
  - split; [reflexivity | discriminate].
  - exists results. split; assumption.
  - exists results. split; [exact Hrun|]. exfalso.
    vm_compute in Hrun. injection Hrun as <-. discriminate Hlength.
Defined.
